(** * Acceptance metrics of the platform VM

    A shallow embedding of [vms/platformvm/metrics.go]: the [metrics]
    struct, its [Initialize] method and the two acceptance dispatchers
    [AcceptBlock] and [AcceptTx], followed by the properties that the
    specification states about them.

    Go values are embedded as follows.
    - An [error] interface value is an [option error]; [None] is [nil].
    - A method with a pointer receiver [m *metrics] is a computation in the
      state monad [State metrics]; the receiver is the threaded state.
    - A type switch is a [match] on the dynamic type of the interface value;
      every dynamic type that no [case] names is one extra constructor.
    - Prometheus handles are records of their descriptor and their value.
      Only non-nil handles are modelled, that is a [metrics] value is one
      whose fields have been assigned; pointers to blocks and transactions
      are non-nil as well. *)

From stdpp Require Import base strings list gmap.

(** ** The state monad *)

Definition State (S A : Type) : Type := S → A * S.

#[global] Instance State_ret {S} : MRet (State S) := λ A a s, (a, s).
#[global] Instance State_bind {S} : MBind (State S) :=
  λ A B k c s, let '(a, s') := c s in k a s'.

Definition modify {S} (f : S → S) : State S unit := λ s, (tt, f s).

(** ** Go errors *)

(** [errorString] is the value built by [errors.New]; [multiError] is an
    error that carries several others. *)
#[warnings="-register-all"]
Inductive error : Type :=
  | errorString (s : string)
  | multiError (es : list error).

Definition errors_New (text : string) : error := errorString text.

Definition errUnknownBlockType : error := errors_New "unknown block type".

(** Modelled from the spec: [errUnknownTxType] is used by [AcceptTx] and
    declared in another file of the package; the specification describes it
    as a distinct "unknown transaction type" error. *)
Definition errUnknownTxType : error := errors_New "unknown transaction type".

(** ** utils/wrappers *)

Module wrappers.

Record Errs : Type := { Err : option error }.

(** The errors already held by an accumulator, one by one. *)
Definition held (e : option error) : list error :=
  match e with
  | None => []
  | Some (multiError es) => es
  | Some e => [e]
  end.

(** Modelled from the spec: [wrappers.Errs] and its [Add] method are not
    part of the file under verification.  The specification describes a
    result-collecting accumulator that merges all failures into one
    returned error, and a nil result when nothing failed. *)
Definition Add (errs : Errs) (errors : list (option error)) : Errs :=
  match omap id errors with
  | [] => errs
  | failures => {| Err := Some (multiError (held (Err errs) ++ failures)) |}
  end.

End wrappers.

(** ** The Prometheus client, as far as the file uses it *)

Module prometheus.

(** [CounterOpts] and [GaugeOpts] are both the [Opts] struct; fields that
    the file leaves out keep their zero value. *)
Record Opts : Type := {
  Namespace : string;
  Subsystem : string;
  Name : string;
  Help : string
}.

(** A counter starts at zero and [Inc] adds one to it. *)
Record Counter : Type := { counterOpts : Opts; counterValue : nat }.

(** A gauge holds a number that is set from outside; this file never reads
    or writes it. *)
Record Gauge : Type := { gaugeOpts : Opts; gaugeValue : Z }.

Definition NewCounter (opts : Opts) : Counter :=
  {| counterOpts := opts; counterValue := 0 |}.

Definition NewGauge (opts : Opts) : Gauge :=
  {| gaugeOpts := opts; gaugeValue := 0 |}.

Definition Inc (c : Counter) : Counter :=
  {| counterOpts := counterOpts c; counterValue := counterValue c + 1 |}.

(** The fully qualified name under which a metric is exported. *)
Definition BuildFQName (namespace subsystem name : string) : string :=
  if decide (name = "") then ""
  else if decide (namespace ≠ "" ∧ subsystem ≠ "")
    then namespace +:+ "_" +:+ subsystem +:+ "_" +:+ name
  else if decide (namespace ≠ "") then namespace +:+ "_" +:+ name
  else if decide (subsystem ≠ "") then subsystem +:+ "_" +:+ name
  else name.

Definition fqName (opts : Opts) : string :=
  BuildFQName (Namespace opts) (Subsystem opts) (Name opts).

(** What [Register] receives: a gauge or a counter. *)
Inductive Collector : Type :=
  | GaugeCollector (g : Gauge)
  | CounterCollector (c : Counter).

Definition collectorOpts (c : Collector) : Opts :=
  match c with
  | GaugeCollector g => gaugeOpts g
  | CounterCollector c => counterOpts c
  end.

(** The [Registerer] interface.  An implementation has a state of type [R];
    [Register] returns the error, or nil, and the next state. *)
Class Registerer (R : Type) : Type :=
  Register : Collector → R → option error * R.

(** A registry that refuses a second collector under a name it already
    holds, as the default registry of the client does. *)
#[global] Instance Registry_Registerer : Registerer (gmap string Collector) :=
  λ c r,
    let name := fqName (collectorOpts c) in
    match r !! name with
    | Some _ =>
        (Some (errors_New
                 ("duplicate metrics collector registration attempted: "
                  +:+ name)), r)
    | None => (None, <[name := c]> r)
    end.

End prometheus.

(** ** Blocks and transactions *)

(** The dynamic type of the value held in the interface field
    [tx.UnsignedTx].  The nine types named by the type switch of [AcceptTx]
    keep their names; [OtherUnsignedTx] stands for every other dynamic type,
    the nil interface included. *)
Inductive UnsignedTxType : Type :=
  | VerifiableUnsignedAddDelegatorTx
  | VerifiableUnsignedAddSubnetValidatorTx
  | VerifiableUnsignedAddValidatorTx
  | VerifiableUnsignedAdvanceTimeTx
  | VerifiableUnsignedCreateChainTx
  | VerifiableUnsignedCreateSubnetTx
  | VerifiableUnsignedImportTx
  | VerifiableUnsignedExportTx
  | VerifiableUnsignedRewardValidatorTx
  | OtherUnsignedTx (typeName : string).

Record SignedTx : Type := { UnsignedTx : UnsignedTxType }.

(** The dynamic type of a [snowman.Block] together with the transactions it
    embeds.  [OtherBlock] stands for every dynamic type that the type switch
    of [AcceptBlock] does not name. *)
Inductive Block : Type :=
  | AbortBlock
  | AtomicBlock (Tx : SignedTx)
  | CommitBlock
  | ProposalBlock (Tx : SignedTx)
  | StandardBlock (Txs : list SignedTx)
  | OtherBlock (typeName : string).

#[global] Instance UnsignedTxType_eq_dec : EqDecision UnsignedTxType.
Proof. solve_decision. Defined.

Section platformvm.

(** [metric.APIInterceptor] is opaque to this file. *)
Context {APIInterceptor : Type}.

(** ** The metrics struct *)

Record metrics : Type := {
  percentConnected : prometheus.Gauge;
  totalStake : prometheus.Gauge;

  numAbortBlocks : prometheus.Counter;
  numAtomicBlocks : prometheus.Counter;
  numCommitBlocks : prometheus.Counter;
  numProposalBlocks : prometheus.Counter;
  numStandardBlocks : prometheus.Counter;

  numAddDelegatorTxs : prometheus.Counter;
  numAddSubnetValidatorTxs : prometheus.Counter;
  numAddValidatorTxs : prometheus.Counter;
  numAdvanceTimeTxs : prometheus.Counter;
  numCreateChainTxs : prometheus.Counter;
  numCreateSubnetTxs : prometheus.Counter;
  numExportTxs : prometheus.Counter;
  numImportTxs : prometheus.Counter;
  numRewardValidatorTxs : prometheus.Counter;

  apiRequestMetrics : APIInterceptor
}.

(** Assignment to one field of the struct. *)

Definition set_percentConnected (v : prometheus.Gauge) (m : metrics) : metrics :=
  {| percentConnected := v; totalStake := totalStake m;
     numAbortBlocks := numAbortBlocks m;
     numAtomicBlocks := numAtomicBlocks m;
     numCommitBlocks := numCommitBlocks m;
     numProposalBlocks := numProposalBlocks m;
     numStandardBlocks := numStandardBlocks m;
     numAddDelegatorTxs := numAddDelegatorTxs m;
     numAddSubnetValidatorTxs := numAddSubnetValidatorTxs m;
     numAddValidatorTxs := numAddValidatorTxs m;
     numAdvanceTimeTxs := numAdvanceTimeTxs m;
     numCreateChainTxs := numCreateChainTxs m;
     numCreateSubnetTxs := numCreateSubnetTxs m;
     numExportTxs := numExportTxs m; numImportTxs := numImportTxs m;
     numRewardValidatorTxs := numRewardValidatorTxs m;
     apiRequestMetrics := apiRequestMetrics m |}.

Definition set_totalStake (v : prometheus.Gauge) (m : metrics) : metrics :=
  {| percentConnected := percentConnected m; totalStake := v;
     numAbortBlocks := numAbortBlocks m;
     numAtomicBlocks := numAtomicBlocks m;
     numCommitBlocks := numCommitBlocks m;
     numProposalBlocks := numProposalBlocks m;
     numStandardBlocks := numStandardBlocks m;
     numAddDelegatorTxs := numAddDelegatorTxs m;
     numAddSubnetValidatorTxs := numAddSubnetValidatorTxs m;
     numAddValidatorTxs := numAddValidatorTxs m;
     numAdvanceTimeTxs := numAdvanceTimeTxs m;
     numCreateChainTxs := numCreateChainTxs m;
     numCreateSubnetTxs := numCreateSubnetTxs m;
     numExportTxs := numExportTxs m; numImportTxs := numImportTxs m;
     numRewardValidatorTxs := numRewardValidatorTxs m;
     apiRequestMetrics := apiRequestMetrics m |}.

Definition set_numAbortBlocks (v : prometheus.Counter) (m : metrics) : metrics :=
  {| percentConnected := percentConnected m; totalStake := totalStake m;
     numAbortBlocks := v; numAtomicBlocks := numAtomicBlocks m;
     numCommitBlocks := numCommitBlocks m;
     numProposalBlocks := numProposalBlocks m;
     numStandardBlocks := numStandardBlocks m;
     numAddDelegatorTxs := numAddDelegatorTxs m;
     numAddSubnetValidatorTxs := numAddSubnetValidatorTxs m;
     numAddValidatorTxs := numAddValidatorTxs m;
     numAdvanceTimeTxs := numAdvanceTimeTxs m;
     numCreateChainTxs := numCreateChainTxs m;
     numCreateSubnetTxs := numCreateSubnetTxs m;
     numExportTxs := numExportTxs m; numImportTxs := numImportTxs m;
     numRewardValidatorTxs := numRewardValidatorTxs m;
     apiRequestMetrics := apiRequestMetrics m |}.

Definition set_numAtomicBlocks (v : prometheus.Counter) (m : metrics) : metrics :=
  {| percentConnected := percentConnected m; totalStake := totalStake m;
     numAbortBlocks := numAbortBlocks m; numAtomicBlocks := v;
     numCommitBlocks := numCommitBlocks m;
     numProposalBlocks := numProposalBlocks m;
     numStandardBlocks := numStandardBlocks m;
     numAddDelegatorTxs := numAddDelegatorTxs m;
     numAddSubnetValidatorTxs := numAddSubnetValidatorTxs m;
     numAddValidatorTxs := numAddValidatorTxs m;
     numAdvanceTimeTxs := numAdvanceTimeTxs m;
     numCreateChainTxs := numCreateChainTxs m;
     numCreateSubnetTxs := numCreateSubnetTxs m;
     numExportTxs := numExportTxs m; numImportTxs := numImportTxs m;
     numRewardValidatorTxs := numRewardValidatorTxs m;
     apiRequestMetrics := apiRequestMetrics m |}.

Definition set_numCommitBlocks (v : prometheus.Counter) (m : metrics) : metrics :=
  {| percentConnected := percentConnected m; totalStake := totalStake m;
     numAbortBlocks := numAbortBlocks m;
     numAtomicBlocks := numAtomicBlocks m; numCommitBlocks := v;
     numProposalBlocks := numProposalBlocks m;
     numStandardBlocks := numStandardBlocks m;
     numAddDelegatorTxs := numAddDelegatorTxs m;
     numAddSubnetValidatorTxs := numAddSubnetValidatorTxs m;
     numAddValidatorTxs := numAddValidatorTxs m;
     numAdvanceTimeTxs := numAdvanceTimeTxs m;
     numCreateChainTxs := numCreateChainTxs m;
     numCreateSubnetTxs := numCreateSubnetTxs m;
     numExportTxs := numExportTxs m; numImportTxs := numImportTxs m;
     numRewardValidatorTxs := numRewardValidatorTxs m;
     apiRequestMetrics := apiRequestMetrics m |}.

Definition set_numProposalBlocks (v : prometheus.Counter) (m : metrics) : metrics :=
  {| percentConnected := percentConnected m; totalStake := totalStake m;
     numAbortBlocks := numAbortBlocks m;
     numAtomicBlocks := numAtomicBlocks m;
     numCommitBlocks := numCommitBlocks m; numProposalBlocks := v;
     numStandardBlocks := numStandardBlocks m;
     numAddDelegatorTxs := numAddDelegatorTxs m;
     numAddSubnetValidatorTxs := numAddSubnetValidatorTxs m;
     numAddValidatorTxs := numAddValidatorTxs m;
     numAdvanceTimeTxs := numAdvanceTimeTxs m;
     numCreateChainTxs := numCreateChainTxs m;
     numCreateSubnetTxs := numCreateSubnetTxs m;
     numExportTxs := numExportTxs m; numImportTxs := numImportTxs m;
     numRewardValidatorTxs := numRewardValidatorTxs m;
     apiRequestMetrics := apiRequestMetrics m |}.

Definition set_numStandardBlocks (v : prometheus.Counter) (m : metrics) : metrics :=
  {| percentConnected := percentConnected m; totalStake := totalStake m;
     numAbortBlocks := numAbortBlocks m;
     numAtomicBlocks := numAtomicBlocks m;
     numCommitBlocks := numCommitBlocks m;
     numProposalBlocks := numProposalBlocks m; numStandardBlocks := v;
     numAddDelegatorTxs := numAddDelegatorTxs m;
     numAddSubnetValidatorTxs := numAddSubnetValidatorTxs m;
     numAddValidatorTxs := numAddValidatorTxs m;
     numAdvanceTimeTxs := numAdvanceTimeTxs m;
     numCreateChainTxs := numCreateChainTxs m;
     numCreateSubnetTxs := numCreateSubnetTxs m;
     numExportTxs := numExportTxs m; numImportTxs := numImportTxs m;
     numRewardValidatorTxs := numRewardValidatorTxs m;
     apiRequestMetrics := apiRequestMetrics m |}.

Definition set_numAddDelegatorTxs (v : prometheus.Counter) (m : metrics) : metrics :=
  {| percentConnected := percentConnected m; totalStake := totalStake m;
     numAbortBlocks := numAbortBlocks m;
     numAtomicBlocks := numAtomicBlocks m;
     numCommitBlocks := numCommitBlocks m;
     numProposalBlocks := numProposalBlocks m;
     numStandardBlocks := numStandardBlocks m; numAddDelegatorTxs := v;
     numAddSubnetValidatorTxs := numAddSubnetValidatorTxs m;
     numAddValidatorTxs := numAddValidatorTxs m;
     numAdvanceTimeTxs := numAdvanceTimeTxs m;
     numCreateChainTxs := numCreateChainTxs m;
     numCreateSubnetTxs := numCreateSubnetTxs m;
     numExportTxs := numExportTxs m; numImportTxs := numImportTxs m;
     numRewardValidatorTxs := numRewardValidatorTxs m;
     apiRequestMetrics := apiRequestMetrics m |}.

Definition set_numAddSubnetValidatorTxs (v : prometheus.Counter) (m : metrics) : metrics :=
  {| percentConnected := percentConnected m; totalStake := totalStake m;
     numAbortBlocks := numAbortBlocks m;
     numAtomicBlocks := numAtomicBlocks m;
     numCommitBlocks := numCommitBlocks m;
     numProposalBlocks := numProposalBlocks m;
     numStandardBlocks := numStandardBlocks m;
     numAddDelegatorTxs := numAddDelegatorTxs m;
     numAddSubnetValidatorTxs := v;
     numAddValidatorTxs := numAddValidatorTxs m;
     numAdvanceTimeTxs := numAdvanceTimeTxs m;
     numCreateChainTxs := numCreateChainTxs m;
     numCreateSubnetTxs := numCreateSubnetTxs m;
     numExportTxs := numExportTxs m; numImportTxs := numImportTxs m;
     numRewardValidatorTxs := numRewardValidatorTxs m;
     apiRequestMetrics := apiRequestMetrics m |}.

Definition set_numAddValidatorTxs (v : prometheus.Counter) (m : metrics) : metrics :=
  {| percentConnected := percentConnected m; totalStake := totalStake m;
     numAbortBlocks := numAbortBlocks m;
     numAtomicBlocks := numAtomicBlocks m;
     numCommitBlocks := numCommitBlocks m;
     numProposalBlocks := numProposalBlocks m;
     numStandardBlocks := numStandardBlocks m;
     numAddDelegatorTxs := numAddDelegatorTxs m;
     numAddSubnetValidatorTxs := numAddSubnetValidatorTxs m;
     numAddValidatorTxs := v; numAdvanceTimeTxs := numAdvanceTimeTxs m;
     numCreateChainTxs := numCreateChainTxs m;
     numCreateSubnetTxs := numCreateSubnetTxs m;
     numExportTxs := numExportTxs m; numImportTxs := numImportTxs m;
     numRewardValidatorTxs := numRewardValidatorTxs m;
     apiRequestMetrics := apiRequestMetrics m |}.

Definition set_numAdvanceTimeTxs (v : prometheus.Counter) (m : metrics) : metrics :=
  {| percentConnected := percentConnected m; totalStake := totalStake m;
     numAbortBlocks := numAbortBlocks m;
     numAtomicBlocks := numAtomicBlocks m;
     numCommitBlocks := numCommitBlocks m;
     numProposalBlocks := numProposalBlocks m;
     numStandardBlocks := numStandardBlocks m;
     numAddDelegatorTxs := numAddDelegatorTxs m;
     numAddSubnetValidatorTxs := numAddSubnetValidatorTxs m;
     numAddValidatorTxs := numAddValidatorTxs m; numAdvanceTimeTxs := v;
     numCreateChainTxs := numCreateChainTxs m;
     numCreateSubnetTxs := numCreateSubnetTxs m;
     numExportTxs := numExportTxs m; numImportTxs := numImportTxs m;
     numRewardValidatorTxs := numRewardValidatorTxs m;
     apiRequestMetrics := apiRequestMetrics m |}.

Definition set_numCreateChainTxs (v : prometheus.Counter) (m : metrics) : metrics :=
  {| percentConnected := percentConnected m; totalStake := totalStake m;
     numAbortBlocks := numAbortBlocks m;
     numAtomicBlocks := numAtomicBlocks m;
     numCommitBlocks := numCommitBlocks m;
     numProposalBlocks := numProposalBlocks m;
     numStandardBlocks := numStandardBlocks m;
     numAddDelegatorTxs := numAddDelegatorTxs m;
     numAddSubnetValidatorTxs := numAddSubnetValidatorTxs m;
     numAddValidatorTxs := numAddValidatorTxs m;
     numAdvanceTimeTxs := numAdvanceTimeTxs m; numCreateChainTxs := v;
     numCreateSubnetTxs := numCreateSubnetTxs m;
     numExportTxs := numExportTxs m; numImportTxs := numImportTxs m;
     numRewardValidatorTxs := numRewardValidatorTxs m;
     apiRequestMetrics := apiRequestMetrics m |}.

Definition set_numCreateSubnetTxs (v : prometheus.Counter) (m : metrics) : metrics :=
  {| percentConnected := percentConnected m; totalStake := totalStake m;
     numAbortBlocks := numAbortBlocks m;
     numAtomicBlocks := numAtomicBlocks m;
     numCommitBlocks := numCommitBlocks m;
     numProposalBlocks := numProposalBlocks m;
     numStandardBlocks := numStandardBlocks m;
     numAddDelegatorTxs := numAddDelegatorTxs m;
     numAddSubnetValidatorTxs := numAddSubnetValidatorTxs m;
     numAddValidatorTxs := numAddValidatorTxs m;
     numAdvanceTimeTxs := numAdvanceTimeTxs m;
     numCreateChainTxs := numCreateChainTxs m; numCreateSubnetTxs := v;
     numExportTxs := numExportTxs m; numImportTxs := numImportTxs m;
     numRewardValidatorTxs := numRewardValidatorTxs m;
     apiRequestMetrics := apiRequestMetrics m |}.

Definition set_numExportTxs (v : prometheus.Counter) (m : metrics) : metrics :=
  {| percentConnected := percentConnected m; totalStake := totalStake m;
     numAbortBlocks := numAbortBlocks m;
     numAtomicBlocks := numAtomicBlocks m;
     numCommitBlocks := numCommitBlocks m;
     numProposalBlocks := numProposalBlocks m;
     numStandardBlocks := numStandardBlocks m;
     numAddDelegatorTxs := numAddDelegatorTxs m;
     numAddSubnetValidatorTxs := numAddSubnetValidatorTxs m;
     numAddValidatorTxs := numAddValidatorTxs m;
     numAdvanceTimeTxs := numAdvanceTimeTxs m;
     numCreateChainTxs := numCreateChainTxs m;
     numCreateSubnetTxs := numCreateSubnetTxs m; numExportTxs := v;
     numImportTxs := numImportTxs m;
     numRewardValidatorTxs := numRewardValidatorTxs m;
     apiRequestMetrics := apiRequestMetrics m |}.

Definition set_numImportTxs (v : prometheus.Counter) (m : metrics) : metrics :=
  {| percentConnected := percentConnected m; totalStake := totalStake m;
     numAbortBlocks := numAbortBlocks m;
     numAtomicBlocks := numAtomicBlocks m;
     numCommitBlocks := numCommitBlocks m;
     numProposalBlocks := numProposalBlocks m;
     numStandardBlocks := numStandardBlocks m;
     numAddDelegatorTxs := numAddDelegatorTxs m;
     numAddSubnetValidatorTxs := numAddSubnetValidatorTxs m;
     numAddValidatorTxs := numAddValidatorTxs m;
     numAdvanceTimeTxs := numAdvanceTimeTxs m;
     numCreateChainTxs := numCreateChainTxs m;
     numCreateSubnetTxs := numCreateSubnetTxs m;
     numExportTxs := numExportTxs m; numImportTxs := v;
     numRewardValidatorTxs := numRewardValidatorTxs m;
     apiRequestMetrics := apiRequestMetrics m |}.

Definition set_numRewardValidatorTxs (v : prometheus.Counter) (m : metrics) : metrics :=
  {| percentConnected := percentConnected m; totalStake := totalStake m;
     numAbortBlocks := numAbortBlocks m;
     numAtomicBlocks := numAtomicBlocks m;
     numCommitBlocks := numCommitBlocks m;
     numProposalBlocks := numProposalBlocks m;
     numStandardBlocks := numStandardBlocks m;
     numAddDelegatorTxs := numAddDelegatorTxs m;
     numAddSubnetValidatorTxs := numAddSubnetValidatorTxs m;
     numAddValidatorTxs := numAddValidatorTxs m;
     numAdvanceTimeTxs := numAdvanceTimeTxs m;
     numCreateChainTxs := numCreateChainTxs m;
     numCreateSubnetTxs := numCreateSubnetTxs m;
     numExportTxs := numExportTxs m; numImportTxs := numImportTxs m;
     numRewardValidatorTxs := v; apiRequestMetrics := apiRequestMetrics m |}.

Definition set_apiRequestMetrics (v : APIInterceptor) (m : metrics) : metrics :=
  {| percentConnected := percentConnected m; totalStake := totalStake m;
     numAbortBlocks := numAbortBlocks m;
     numAtomicBlocks := numAtomicBlocks m;
     numCommitBlocks := numCommitBlocks m;
     numProposalBlocks := numProposalBlocks m;
     numStandardBlocks := numStandardBlocks m;
     numAddDelegatorTxs := numAddDelegatorTxs m;
     numAddSubnetValidatorTxs := numAddSubnetValidatorTxs m;
     numAddValidatorTxs := numAddValidatorTxs m;
     numAdvanceTimeTxs := numAdvanceTimeTxs m;
     numCreateChainTxs := numCreateChainTxs m;
     numCreateSubnetTxs := numCreateSubnetTxs m;
     numExportTxs := numExportTxs m; numImportTxs := numImportTxs m;
     numRewardValidatorTxs := numRewardValidatorTxs m;
     apiRequestMetrics := v |}.

(** [IncField get set] is the statement [m.field.Inc()]. *)
Definition IncField (get : metrics → prometheus.Counter)
    (set : prometheus.Counter → metrics → metrics) : State metrics unit :=
  modify (λ m, set (prometheus.Inc (get m)) m).

Definition newBlockMetrics (namespace name : string) : prometheus.Counter :=
  prometheus.NewCounter
    {| prometheus.Namespace := namespace;
       prometheus.Subsystem := "";
       prometheus.Name := name +:+ "_blks_accepted";
       prometheus.Help := "Number of " +:+ name +:+ " blocks accepted" |}.

Definition newTxMetrics (namespace name : string) : prometheus.Counter :=
  prometheus.NewCounter
    {| prometheus.Namespace := namespace;
       prometheus.Subsystem := "";
       prometheus.Name := name +:+ "_txs_accepted";
       prometheus.Help := "Number of " +:+ name +:+ " transactions. accepted" |}.

(** ** AcceptTx *)

Definition AcceptTx (tx : SignedTx) : State metrics (option error) :=
  match UnsignedTx tx with
  | VerifiableUnsignedAddDelegatorTx =>
      IncField numAddDelegatorTxs set_numAddDelegatorTxs;; mret None
  | VerifiableUnsignedAddSubnetValidatorTx =>
      IncField numAddSubnetValidatorTxs set_numAddSubnetValidatorTxs;; mret None
  | VerifiableUnsignedAddValidatorTx =>
      IncField numAddValidatorTxs set_numAddValidatorTxs;; mret None
  | VerifiableUnsignedAdvanceTimeTx =>
      IncField numAdvanceTimeTxs set_numAdvanceTimeTxs;; mret None
  | VerifiableUnsignedCreateChainTx =>
      IncField numCreateChainTxs set_numCreateChainTxs;; mret None
  | VerifiableUnsignedCreateSubnetTx =>
      IncField numCreateSubnetTxs set_numCreateSubnetTxs;; mret None
  | VerifiableUnsignedImportTx =>
      IncField numImportTxs set_numImportTxs;; mret None
  | VerifiableUnsignedExportTx =>
      IncField numExportTxs set_numExportTxs;; mret None
  | VerifiableUnsignedRewardValidatorTx =>
      IncField numRewardValidatorTxs set_numRewardValidatorTxs;; mret None
  | OtherUnsignedTx _ => mret (Some errUnknownTxType)
  end.

(** ** AcceptBlock *)

(** The loop [for _, tx := range b.Txs] with its early return. *)
Fixpoint rangeTxs (txs : list SignedTx) : State metrics (option error) :=
  match txs with
  | [] => mret None
  | tx :: rest =>
      err ← AcceptTx tx;
      match err with
      | Some e => mret (Some e)
      | None => rangeTxs rest
      end
  end.

Definition AcceptBlock (b : Block) : State metrics (option error) :=
  match b with
  | AbortBlock =>
      IncField numAbortBlocks set_numAbortBlocks;; mret None
  | AtomicBlock Tx =>
      IncField numAtomicBlocks set_numAtomicBlocks;; AcceptTx Tx
  | CommitBlock =>
      IncField numCommitBlocks set_numCommitBlocks;; mret None
  | ProposalBlock Tx =>
      IncField numProposalBlocks set_numProposalBlocks;; AcceptTx Tx
  | StandardBlock Txs =>
      IncField numStandardBlocks set_numStandardBlocks;; rangeTxs Txs
  | OtherBlock _ => mret (Some errUnknownBlockType)
  end.

(** ** Initialize *)

Section Initialize.

(** The registerer handed to [Initialize] is any implementation of the
    interface.  [metric.NewAPIInterceptor] lives outside this file: it takes
    the namespace and the registerer, may use the registerer, and returns
    the interceptor and an error. *)
Context {R : Type} `{!prometheus.Registerer R}.
Variable NewAPIInterceptor :
  string → R → (APIInterceptor * option error) * R.

(** What [Initialize] acts on: its receiver, the registerer, and a record of
    the [Register] calls that [Initialize] itself has issued, each with the
    collector passed and the error returned. *)
Record world : Type := {
  receiver : metrics;
  registerer : R;
  registerCalls : list (prometheus.Collector * option error)
}.

(** [m.field = v] *)
Definition assign {A} (set : A → metrics → metrics) (v : A) : State world unit :=
  modify (λ w,
    {| receiver := set v (receiver w);
       registerer := registerer w;
       registerCalls := registerCalls w |}).

(** [metric.NewAPIInterceptor(namespace, registerer)] *)
Definition callNewAPIInterceptor (namespace : string)
    : State world (APIInterceptor * option error) :=
  λ w,
    let '(res, r) := NewAPIInterceptor namespace (registerer w) in
    (res, {| receiver := receiver w;
             registerer := r;
             registerCalls := registerCalls w |}).

(** [registerer.Register(m.field)]; the field is read when the call is made. *)
Definition callRegister (field : metrics → prometheus.Collector)
    : State world (option error) :=
  λ w,
    let c := field (receiver w) in
    let '(err, r) := prometheus.Register c (registerer w) in
    (err, {| receiver := receiver w;
             registerer := r;
             registerCalls := registerCalls w ++ [(c, err)] |}).

Definition gauge (f : metrics → prometheus.Gauge) (m : metrics)
    : prometheus.Collector :=
  prometheus.GaugeCollector (f m).

Definition counter (f : metrics → prometheus.Counter) (m : metrics)
    : prometheus.Collector :=
  prometheus.CounterCollector (f m).

(** The arguments of [errs.Add] are evaluated from left to right before the
    call, so the sixteen [Register] calls run in the order written, each of
    them whatever the earlier ones returned. *)
Definition Initialize (namespace : string) : State world (option error) :=
  assign set_percentConnected
    (prometheus.NewGauge
       {| prometheus.Namespace := namespace;
          prometheus.Subsystem := "";
          prometheus.Name := "percent_connected";
          prometheus.Help := "Percent of connected stake" |});;
  assign set_totalStake
    (prometheus.NewGauge
       {| prometheus.Namespace := namespace;
          prometheus.Subsystem := "";
          prometheus.Name := "total_staked";
          prometheus.Help := "Total amount of AVAX staked" |});;

  assign set_numAbortBlocks (newBlockMetrics namespace "abort");;
  assign set_numAtomicBlocks (newBlockMetrics namespace "atomic");;
  assign set_numCommitBlocks (newBlockMetrics namespace "commit");;
  assign set_numProposalBlocks (newBlockMetrics namespace "proposal");;
  assign set_numStandardBlocks (newBlockMetrics namespace "standard");;

  assign set_numAddDelegatorTxs (newTxMetrics namespace "add_delegator");;
  assign set_numAddSubnetValidatorTxs
    (newTxMetrics namespace "add_subnet_validator");;
  assign set_numAddValidatorTxs (newTxMetrics namespace "add_validator");;
  assign set_numAdvanceTimeTxs (newTxMetrics namespace "advance_time");;
  assign set_numCreateChainTxs (newTxMetrics namespace "create_chain");;
  assign set_numCreateSubnetTxs (newTxMetrics namespace "create_subnet");;
  assign set_numExportTxs (newTxMetrics namespace "export");;
  assign set_numImportTxs (newTxMetrics namespace "import");;
  assign set_numRewardValidatorTxs (newTxMetrics namespace "reward_validator");;

  '(apiRequestMetrics, err) ← callNewAPIInterceptor namespace;
  assign set_apiRequestMetrics apiRequestMetrics;;
  let errs := {| wrappers.Err := None |} in
  e1 ← callRegister (gauge percentConnected);
  e2 ← callRegister (gauge totalStake);

  e3 ← callRegister (counter numAbortBlocks);
  e4 ← callRegister (counter numAtomicBlocks);
  e5 ← callRegister (counter numCommitBlocks);
  e6 ← callRegister (counter numProposalBlocks);
  e7 ← callRegister (counter numStandardBlocks);

  e8 ← callRegister (counter numAddDelegatorTxs);
  e9 ← callRegister (counter numAddSubnetValidatorTxs);
  e10 ← callRegister (counter numAddValidatorTxs);
  e11 ← callRegister (counter numAdvanceTimeTxs);
  e12 ← callRegister (counter numCreateChainTxs);
  e13 ← callRegister (counter numCreateSubnetTxs);
  e14 ← callRegister (counter numExportTxs);
  e15 ← callRegister (counter numImportTxs);
  e16 ← callRegister (counter numRewardValidatorTxs);
  let errs :=
    wrappers.Add errs
      [err; e1; e2; e3; e4; e5; e6; e7; e8; e9; e10; e11; e12; e13; e14; e15;
       e16] in
  mret (wrappers.Err errs).

End Initialize.

End platformvm.

(** ** Vocabulary of the specification *)

(** The closed enumerations of block and transaction variants. *)
Inductive BlockVariant : Type := Abort | Atomic | Commit | Proposal | Standard.

Inductive TxVariant : Type :=
  | AddDelegator | AddSubnetValidator | AddValidator | AdvanceTime
  | CreateChain | CreateSubnet | Export | Import | RewardValidator.

#[global] Instance BlockVariant_eq_dec : EqDecision BlockVariant.
Proof. solve_decision. Defined.

#[global] Instance TxVariant_eq_dec : EqDecision TxVariant.
Proof. solve_decision. Defined.

Definition blockVariants : list BlockVariant :=
  [Abort; Atomic; Commit; Proposal; Standard].

Definition txVariants : list TxVariant :=
  [AddDelegator; AddSubnetValidator; AddValidator; AdvanceTime; CreateChain;
   CreateSubnet; Export; Import; RewardValidator].

(** The variant of a block, [None] for an identity outside the enumeration. *)
Definition blockVariantOf (b : Block) : option BlockVariant :=
  match b with
  | AbortBlock => Some Abort
  | AtomicBlock _ => Some Atomic
  | CommitBlock => Some Commit
  | ProposalBlock _ => Some Proposal
  | StandardBlock _ => Some Standard
  | OtherBlock _ => None
  end.

(** The variant of the unsigned payload of a signed transaction. *)
Definition txVariantOf (tx : SignedTx) : option TxVariant :=
  match UnsignedTx tx with
  | VerifiableUnsignedAddDelegatorTx => Some AddDelegator
  | VerifiableUnsignedAddSubnetValidatorTx => Some AddSubnetValidator
  | VerifiableUnsignedAddValidatorTx => Some AddValidator
  | VerifiableUnsignedAdvanceTimeTx => Some AdvanceTime
  | VerifiableUnsignedCreateChainTx => Some CreateChain
  | VerifiableUnsignedCreateSubnetTx => Some CreateSubnet
  | VerifiableUnsignedImportTx => Some Import
  | VerifiableUnsignedExportTx => Some Export
  | VerifiableUnsignedRewardValidatorTx => Some RewardValidator
  | OtherUnsignedTx _ => None
  end.

(** The transactions that a block embeds, in order. *)
Definition embedded (b : Block) : list SignedTx :=
  match b with
  | AtomicBlock tx | ProposalBlock tx => [tx]
  | StandardBlock txs => txs
  | AbortBlock | CommitBlock | OtherBlock _ => []
  end.

(** A transaction whose payload is one of the nine variants. *)
Definition classified (tx : SignedTx) : Prop := is_Some (txVariantOf tx).

(** How many transactions of a list have variant [v]. *)
Definition countTxs (v : TxVariant) (txs : list SignedTx) : nat :=
  length (filter (λ tx, txVariantOf tx = Some v) txs).

(** The kind of a variant as it appears in metric names. *)
Definition blockKind (v : BlockVariant) : string :=
  match v with
  | Abort => "abort"
  | Atomic => "atomic"
  | Commit => "commit"
  | Proposal => "proposal"
  | Standard => "standard"
  end.

Definition txKind (v : TxVariant) : string :=
  match v with
  | AddDelegator => "add_delegator"
  | AddSubnetValidator => "add_subnet_validator"
  | AddValidator => "add_validator"
  | AdvanceTime => "advance_time"
  | CreateChain => "create_chain"
  | CreateSubnet => "create_subnet"
  | Export => "export"
  | Import => "import"
  | RewardValidator => "reward_validator"
  end.

Section views.

Context {APIInterceptor : Type}.
Implicit Types m : @metrics APIInterceptor.

(** The counter that the metric set keeps for a variant. *)
Definition blockCounter (v : BlockVariant) m : prometheus.Counter :=
  match v with
  | Abort => numAbortBlocks m
  | Atomic => numAtomicBlocks m
  | Commit => numCommitBlocks m
  | Proposal => numProposalBlocks m
  | Standard => numStandardBlocks m
  end.

Definition txCounter (v : TxVariant) m : prometheus.Counter :=
  match v with
  | AddDelegator => numAddDelegatorTxs m
  | AddSubnetValidator => numAddSubnetValidatorTxs m
  | AddValidator => numAddValidatorTxs m
  | AdvanceTime => numAdvanceTimeTxs m
  | CreateChain => numCreateChainTxs m
  | CreateSubnet => numCreateSubnetTxs m
  | Export => numExportTxs m
  | Import => numImportTxs m
  | RewardValidator => numRewardValidatorTxs m
  end.

(** The metric set with the counter of one variant incremented once. *)
Definition bumpBlock (v : BlockVariant) m : metrics :=
  match v with
  | Abort => set_numAbortBlocks (prometheus.Inc (numAbortBlocks m)) m
  | Atomic => set_numAtomicBlocks (prometheus.Inc (numAtomicBlocks m)) m
  | Commit => set_numCommitBlocks (prometheus.Inc (numCommitBlocks m)) m
  | Proposal => set_numProposalBlocks (prometheus.Inc (numProposalBlocks m)) m
  | Standard => set_numStandardBlocks (prometheus.Inc (numStandardBlocks m)) m
  end.

Definition bumpTx (v : TxVariant) m : metrics :=
  match v with
  | AddDelegator =>
      set_numAddDelegatorTxs (prometheus.Inc (numAddDelegatorTxs m)) m
  | AddSubnetValidator =>
      set_numAddSubnetValidatorTxs
        (prometheus.Inc (numAddSubnetValidatorTxs m)) m
  | AddValidator =>
      set_numAddValidatorTxs (prometheus.Inc (numAddValidatorTxs m)) m
  | AdvanceTime =>
      set_numAdvanceTimeTxs (prometheus.Inc (numAdvanceTimeTxs m)) m
  | CreateChain =>
      set_numCreateChainTxs (prometheus.Inc (numCreateChainTxs m)) m
  | CreateSubnet =>
      set_numCreateSubnetTxs (prometheus.Inc (numCreateSubnetTxs m)) m
  | Export => set_numExportTxs (prometheus.Inc (numExportTxs m)) m
  | Import => set_numImportTxs (prometheus.Inc (numImportTxs m)) m
  | RewardValidator =>
      set_numRewardValidatorTxs (prometheus.Inc (numRewardValidatorTxs m)) m
  end.

(** Everything in the metric set that is not a counter is the same. *)
Definition sameGauges m m' : Prop :=
  percentConnected m' = percentConnected m
  ∧ totalStake m' = totalStake m
  ∧ apiRequestMetrics m' = apiRequestMetrics m.

(** The block counter of [v] went up by one and no other block counter
    changed. *)
Definition onlyBlock (v : BlockVariant) m m' : Prop :=
  blockCounter v m' = prometheus.Inc (blockCounter v m)
  ∧ ∀ v', v' ≠ v → blockCounter v' m' = blockCounter v' m.

(** The transaction counter of [v] went up by one and no other transaction
    counter changed. *)
Definition onlyTx (v : TxVariant) m m' : Prop :=
  txCounter v m' = prometheus.Inc (txCounter v m)
  ∧ ∀ v', v' ≠ v → txCounter v' m' = txCounter v' m.

(** Each transaction counter went up by the number of transactions of its
    variant in [txs], and kept its descriptor. *)
Definition countedTxs (txs : list SignedTx) m m' : Prop :=
  ∀ v,
    prometheus.counterValue (txCounter v m')
      = prometheus.counterValue (txCounter v m) + countTxs v txs
    ∧ prometheus.counterOpts (txCounter v m')
      = prometheus.counterOpts (txCounter v m).

(** The state reached by handing [txs] to [AcceptTx] one after the other. *)
Definition dispatchAll (txs : list SignedTx) m : metrics :=
  foldl (λ m tx, (AcceptTx tx m).2) m txs.

(** What accepting a Standard block does to the metric set when [txs] are
    the transactions that were counted: the standard-block counter goes up by
    one, no other block counter and no gauge changes, every transaction
    counter goes up by the number of its transactions in [txs], and the
    final state is the one reached by dispatching [txs] in list order after
    the block counter was incremented. *)
Definition standardEffect (txs : list SignedTx) m m' : Prop :=
  onlyBlock Standard m m'
  ∧ prometheus.counterValue (numStandardBlocks m')
    = prometheus.counterValue (numStandardBlocks m) + 1
  ∧ countedTxs txs m m'
  ∧ sameGauges m m'
  ∧ m' = dispatchAll txs (bumpBlock Standard m).

(** The sixteen descriptors of a metric set, in the order of the struct. *)
Definition metricOpts m : list prometheus.Opts :=
  [prometheus.gaugeOpts (percentConnected m);
   prometheus.gaugeOpts (totalStake m)]
  ++ map (λ v, prometheus.counterOpts (blockCounter v m)) blockVariants
  ++ map (λ v, prometheus.counterOpts (txCounter v m)) txVariants.

(** The sixteen collectors of a metric set: two gauges, five block counters
    and nine transaction counters. *)
Definition collectors m : list prometheus.Collector :=
  [prometheus.GaugeCollector (percentConnected m);
   prometheus.GaugeCollector (totalStake m)]
  ++ map (λ v, prometheus.CounterCollector (blockCounter v m)) blockVariants
  ++ map (λ v, prometheus.CounterCollector (txCounter v m)) txVariants.

End views.

(** The errors among the results of a sequence of [Register] calls. *)
Definition failures (calls : list (prometheus.Collector * option error))
    : list error :=
  omap snd calls.

(** Registering a list of collectors one after the other, whatever each call
    returns; the results come back in the same order. *)
Fixpoint registerAll {R} `{!prometheus.Registerer R}
    (cs : list prometheus.Collector) : State R (list (option error)) :=
  match cs with
  | [] => mret []
  | c :: cs =>
      err ← (prometheus.Register c : State R (option error));
      errs ← registerAll cs;
      mret (err :: errs)
  end.

(** The metric set that [Initialize] assigns, field by field. *)
Definition constructed {APIInterceptor} (namespace : string)
    (api : APIInterceptor) : metrics :=
  {| percentConnected :=
       prometheus.NewGauge
         {| prometheus.Namespace := namespace;
            prometheus.Subsystem := "";
            prometheus.Name := "percent_connected";
            prometheus.Help := "Percent of connected stake" |};
     totalStake :=
       prometheus.NewGauge
         {| prometheus.Namespace := namespace;
            prometheus.Subsystem := "";
            prometheus.Name := "total_staked";
            prometheus.Help := "Total amount of AVAX staked" |};
     numAbortBlocks := newBlockMetrics namespace "abort";
     numAtomicBlocks := newBlockMetrics namespace "atomic";
     numCommitBlocks := newBlockMetrics namespace "commit";
     numProposalBlocks := newBlockMetrics namespace "proposal";
     numStandardBlocks := newBlockMetrics namespace "standard";
     numAddDelegatorTxs := newTxMetrics namespace "add_delegator";
     numAddSubnetValidatorTxs := newTxMetrics namespace "add_subnet_validator";
     numAddValidatorTxs := newTxMetrics namespace "add_validator";
     numAdvanceTimeTxs := newTxMetrics namespace "advance_time";
     numCreateChainTxs := newTxMetrics namespace "create_chain";
     numCreateSubnetTxs := newTxMetrics namespace "create_subnet";
     numExportTxs := newTxMetrics namespace "export";
     numImportTxs := newTxMetrics namespace "import";
     numRewardValidatorTxs := newTxMetrics namespace "reward_validator";
     apiRequestMetrics := api |}.

(** The sixteen metric names of the specification, gauges first, then the
    block counters, then the transaction counters. *)
Definition metricNames : list string :=
  ["percent_connected"; "total_staked";
   "abort_blks_accepted"; "atomic_blks_accepted"; "commit_blks_accepted";
   "proposal_blks_accepted"; "standard_blks_accepted";
   "add_delegator_txs_accepted"; "add_subnet_validator_txs_accepted";
   "add_validator_txs_accepted"; "advance_time_txs_accepted";
   "create_chain_txs_accepted"; "create_subnet_txs_accepted";
   "export_txs_accepted"; "import_txs_accepted";
   "reward_validator_txs_accepted"].

(** ** Accounting over whole blocks and sequences of blocks *)

Section accounting.

Context {APIInterceptor : Type}.
Implicit Types m : @metrics APIInterceptor.

(** The number of blocks, and of transactions, that a metric set has
    counted over all variants. *)
Definition totalBlocks m : nat :=
  sum_list_with (λ v, prometheus.counterValue (blockCounter v m)) blockVariants.

Definition totalTxs m : nat :=
  sum_list_with (λ v, prometheus.counterValue (txCounter v m)) txVariants.

(** No counter changed its descriptor, and no counter went down. *)
Definition countersGrew m m' : Prop :=
  (∀ v, prometheus.counterOpts (blockCounter v m')
          = prometheus.counterOpts (blockCounter v m)
        ∧ prometheus.counterValue (blockCounter v m)
          ≤ prometheus.counterValue (blockCounter v m'))
  ∧ (∀ v, prometheus.counterOpts (txCounter v m')
            = prometheus.counterOpts (txCounter v m)
          ∧ prometheus.counterValue (txCounter v m)
            ≤ prometheus.counterValue (txCounter v m')).

(** Blocks handed to [AcceptBlock] one after the other on the same metric
    set, whatever each call returns. *)
Definition acceptBlocks (bs : list Block) m : metrics :=
  foldl (λ m b, (AcceptBlock b m).2) m bs.

End accounting.

(** How many blocks of a list have variant [v]. *)
Definition countBlocks (v : BlockVariant) (bs : list Block) : nat :=
  length (filter (λ b, blockVariantOf b = Some v) bs).

(** All transactions embedded in a list of blocks, in order. *)
Definition embeddedAll (bs : list Block) : list SignedTx :=
  concat (map embedded bs).

(** A string as the list of its characters. *)
Fixpoint chars (s : string) : list Ascii.ascii :=
  match s with
  | EmptyString => []
  | String a s => a :: chars s
  end.

(** The characters that [prometheus.BuildFQName] puts in front of a name. *)
Definition prefixChars (namespace : string) : list Ascii.ascii :=
  if decide (namespace = "") then [] else chars namespace ++ chars "_".

(** ** Fixtures *)

Module fixture.

Definition opts : prometheus.Opts :=
  {| prometheus.Namespace := ""; prometheus.Subsystem := "";
     prometheus.Name := ""; prometheus.Help := "" |}.

(** A metric set to start from; [Initialize] overwrites every field. *)
Definition blank : @metrics unit :=
  let c := prometheus.NewCounter opts in
  let g := prometheus.NewGauge opts in
  {| percentConnected := g; totalStake := g;
     numAbortBlocks := c; numAtomicBlocks := c; numCommitBlocks := c;
     numProposalBlocks := c; numStandardBlocks := c;
     numAddDelegatorTxs := c; numAddSubnetValidatorTxs := c;
     numAddValidatorTxs := c; numAdvanceTimeTxs := c;
     numCreateChainTxs := c; numCreateSubnetTxs := c; numExportTxs := c;
     numImportTxs := c; numRewardValidatorTxs := c;
     apiRequestMetrics := tt |}.

(** An interceptor constructor that leaves the registerer alone. *)
Definition quietInterceptor {R} (namespace : string) (r : R)
    : (unit * option error) * R :=
  ((tt, None), r).

Definition start (r : gmap string prometheus.Collector)
    : @world unit (gmap string prometheus.Collector) :=
  {| receiver := blank; registerer := r; registerCalls := [] |}.

(** The world after a first [Initialize] on an empty registry. *)
Definition initialized : @world unit (gmap string prometheus.Collector) :=
  (Initialize quietInterceptor "avalanche_P" (start ∅)).2.

Definition ready : @metrics unit := receiver initialized.

Definition tx (t : UnsignedTxType) : SignedTx := {| UnsignedTx := t |}.

(** A registry in which two of the sixteen names are already taken. *)
Definition crowded : gmap string prometheus.Collector :=
  let taken name :=
    prometheus.GaugeCollector
      (prometheus.NewGauge
         {| prometheus.Namespace := "avalanche_P";
            prometheus.Subsystem := "";
            prometheus.Name := name;
            prometheus.Help := "" |}) in
  <["avalanche_P_total_staked" := taken "total_staked"]>
    (<["avalanche_P_export_txs_accepted" := taken "export_txs_accepted"]> ∅).

(** A Standard block whose second transaction is of no known variant. *)
Definition brokenBlock : Block :=
  StandardBlock
    [tx VerifiableUnsignedAddValidatorTx;
     tx (OtherUnsignedTx "UnsignedTransformSubnetTx");
     tx VerifiableUnsignedExportTx].

End fixture.

Module sample.

(** Six blocks as a consensus engine might accept them in a row: one of them
    carries a transaction of no known variant, one is of no known variant
    itself. *)
Definition chain : list Block :=
  [ProposalBlock (fixture.tx VerifiableUnsignedAddValidatorTx);
   CommitBlock;
   StandardBlock
     [fixture.tx VerifiableUnsignedExportTx;
      fixture.tx VerifiableUnsignedImportTx;
      fixture.tx VerifiableUnsignedExportTx];
   fixture.brokenBlock;
   OtherBlock "UnknownBlock";
   AtomicBlock (fixture.tx VerifiableUnsignedImportTx)].

(** The same without the two blocks that make [AcceptBlock] fail. *)
Definition cleanChain : list Block :=
  [ProposalBlock (fixture.tx VerifiableUnsignedAddValidatorTx);
   CommitBlock;
   StandardBlock
     [fixture.tx VerifiableUnsignedExportTx;
      fixture.tx VerifiableUnsignedImportTx;
      fixture.tx VerifiableUnsignedExportTx];
   AtomicBlock (fixture.tx VerifiableUnsignedImportTx)].

End sample.

(** ** Properties of the acceptance dispatchers *)

Section dispatch_properties.

Context {APIInterceptor : Type}.
Implicit Types m : @metrics APIInterceptor.

Lemma AcceptTx_classified tx v m :
  txVariantOf tx = Some v → AcceptTx tx m = (None, bumpTx v m).
Proof.
  destruct tx as [t]; unfold txVariantOf, AcceptTx; simpl.
  destruct t; intros Hv; simplify_eq; reflexivity.
Qed.

Lemma AcceptTx_unclassified tx m :
  txVariantOf tx = None → AcceptTx tx m = (Some errUnknownTxType, m).
Proof.
  destruct tx as [t]; unfold txVariantOf, AcceptTx; simpl.
  destruct t; intros Hv; simplify_eq; reflexivity.
Qed.

Lemma txCounter_bumpTx v v' m :
  txCounter v' (bumpTx v m)
    = if decide (v' = v) then prometheus.Inc (txCounter v m)
      else txCounter v' m.
Proof. destruct v, v'; reflexivity. Qed.

Lemma blockCounter_bumpTx v b m : blockCounter b (bumpTx v m) = blockCounter b m.
Proof. destruct v, b; reflexivity. Qed.

Lemma sameGauges_bumpTx v m : sameGauges m (bumpTx v m).
Proof. destruct v; repeat split. Qed.

Lemma blockCounter_bumpBlock v v' m :
  blockCounter v' (bumpBlock v m)
    = if decide (v' = v) then prometheus.Inc (blockCounter v m)
      else blockCounter v' m.
Proof. destruct v, v'; reflexivity. Qed.

Lemma txCounter_bumpBlock v t m : txCounter t (bumpBlock v m) = txCounter t m.
Proof. destruct v, t; reflexivity. Qed.

Lemma sameGauges_bumpBlock v m : sameGauges m (bumpBlock v m).
Proof. destruct v; repeat split. Qed.

Lemma sameGauges_trans m1 m2 m3 :
  sameGauges m1 m2 → sameGauges m2 m3 → sameGauges m1 m3.
Proof. unfold sameGauges. intros (?&?&?) (?&?&?). repeat split; congruence. Qed.

Lemma onlyBlock_bumpBlock v m : onlyBlock v m (bumpBlock v m).
Proof.
  split; [|intros v' Hne]; rewrite blockCounter_bumpBlock.
  - by rewrite decide_True.
  - by rewrite decide_False.
Qed.

Lemma onlyTx_bumpTx v m : onlyTx v m (bumpTx v m).
Proof.
  split; [|intros v' Hne]; rewrite txCounter_bumpTx.
  - by rewrite decide_True.
  - by rewrite decide_False.
Qed.

Lemma countTxs_cons v tx txs :
  countTxs v (tx :: txs)
    = (if decide (txVariantOf tx = Some v) then 1 else 0) + countTxs v txs.
Proof. unfold countTxs. rewrite filter_cons. by case_decide. Qed.

(** Every list of transactions is either classified throughout or has a
    first transaction that is not. *)
Lemma first_unclassified txs :
  Forall classified txs
  ∨ ∃ pre bad post,
      txs = pre ++ bad :: post ∧ Forall classified pre ∧ txVariantOf bad = None.
Proof.
  induction txs as [|tx txs IH]; [by left|].
  destruct (txVariantOf tx) as [v|] eqn:Hv.
  - destruct IH as [IH|(pre & bad & post & -> & Hpre & Hbad)].
    + left. constructor; [by exists v|done].
    + right. exists (tx :: pre), bad, post.
      split_and!; [done| |done]. constructor; [by exists v|done].
  - right. by exists [], tx, txs.
Qed.

(** The loop over a classified prefix reaches the rest of the list in the
    state that dispatching the prefix in order produces. *)
Lemma rangeTxs_classified pre rest m :
  Forall classified pre →
  rangeTxs (pre ++ rest) m = rangeTxs rest (dispatchAll pre m).
Proof.
  intros Hpre. revert m.
  induction Hpre as [|tx pre [v Hv] _ IH]; intros m; [done|].
  simpl. unfold mbind, State_bind.
  rewrite (AcceptTx_classified _ _ _ Hv). simpl.
  by rewrite IH.
Qed.

Lemma dispatchAll_classified pre m :
  Forall classified pre →
  countedTxs pre m (dispatchAll pre m)
  ∧ (∀ b, blockCounter b (dispatchAll pre m) = blockCounter b m)
  ∧ sameGauges m (dispatchAll pre m).
Proof.
  intros Hpre. revert m.
  induction Hpre as [|tx pre [t Ht] _ IH]; intros m.
  - split_and!; [|done|done]. intros v. unfold countTxs. simpl.
    split; [lia|done].
  - unfold dispatchAll. simpl. rewrite (AcceptTx_classified _ _ _ Ht). simpl.
    destruct (IH (bumpTx t m)) as (Hc & Hb & Hg). split_and!.
    + intros v. destruct (Hc v) as [Hval Hopts].
      unfold dispatchAll in Hval, Hopts. rewrite Hval, Hopts.
      rewrite countTxs_cons, Ht, txCounter_bumpTx.
      repeat case_decide; simplify_eq; simpl; split; (lia || done).
    + intros b. unfold dispatchAll in Hb. by rewrite Hb, blockCounter_bumpTx.
    + eapply sameGauges_trans; [apply sameGauges_bumpTx|apply Hg].
Qed.

Lemma AcceptBlock_standard_classified pre m :
  Forall classified pre →
  standardEffect pre m (dispatchAll pre (bumpBlock Standard m)).
Proof.
  intros Hpre.
  destruct (dispatchAll_classified pre (bumpBlock Standard m) Hpre)
    as (Hc & Hb & Hg).
  assert (onlyBlock Standard m (dispatchAll pre (bumpBlock Standard m))) as Ho.
  { split; [|intros v' Hne]; rewrite Hb, blockCounter_bumpBlock.
    - by rewrite decide_True.
    - by rewrite decide_False. }
  split_and!; [done| | | |done].
  - destruct Ho as [Ho _]. unfold blockCounter in Ho. by rewrite Ho.
  - intros v. destruct (Hc v) as [Hval Hopts].
    by rewrite Hval, Hopts, txCounter_bumpBlock.
  - eapply sameGauges_trans; [apply sameGauges_bumpBlock|apply Hg].
Qed.

Lemma AcceptBlock_standard_run pre rest m :
  Forall classified pre →
  AcceptBlock (StandardBlock (pre ++ rest)) m
    = rangeTxs rest (dispatchAll pre (bumpBlock Standard m)).
Proof.
  intros Hpre. simpl. unfold mbind, State_bind. simpl.
  by rewrite rangeTxs_classified.
Qed.

Lemma AcceptBlock_standard_all pre m :
  Forall classified pre →
  AcceptBlock (StandardBlock pre) m
    = (None, dispatchAll pre (bumpBlock Standard m)).
Proof.
  intros Hpre. pose proof (AcceptBlock_standard_run pre [] m Hpre) as Hrun.
  by rewrite app_nil_r in Hrun.
Qed.

Lemma AcceptBlock_standard_stop pre bad post m :
  Forall classified pre →
  txVariantOf bad = None →
  AcceptBlock (StandardBlock (pre ++ bad :: post)) m
    = (Some errUnknownTxType, dispatchAll pre (bumpBlock Standard m)).
Proof.
  intros Hpre Hbad. rewrite AcceptBlock_standard_run by done. simpl.
  unfold mbind, State_bind. by rewrite (AcceptTx_unclassified _ _ Hbad).
Qed.

(** C10. For every input, [AcceptTx] changes no gauge and no block counter.
    When it returns nil it has incremented exactly one transaction counter,
    by exactly one, and left every other transaction counter as it was; when
    it returns an error the metric set is unchanged. *)
Theorem AcceptTx_frame tx m :
  let '(err, m') := AcceptTx tx m in
  sameGauges m m'
  ∧ (∀ b, blockCounter b m' = blockCounter b m)
  ∧ ((err = None
      ∧ ∃ v, onlyTx v m m'
             ∧ prometheus.counterValue (txCounter v m')
               = prometheus.counterValue (txCounter v m) + 1)
     ∨ (err ≠ None ∧ m' = m)).
Proof.
  destruct (txVariantOf tx) as [v|] eqn:Hv.
  - rewrite (AcceptTx_classified _ _ _ Hv). split_and!.
    + apply sameGauges_bumpTx.
    + intros b. apply blockCounter_bumpTx.
    + left. split; [done|]. exists v. split; [apply onlyTx_bumpTx|].
      rewrite txCounter_bumpTx, decide_True by done. done.
  - rewrite (AcceptTx_unclassified _ _ Hv). split_and!; [done|done|].
    right. done.
Qed.

(** C5. A signed transaction whose unsigned payload is none of the nine
    known variants makes [AcceptTx] return the "unknown transaction type"
    error, which differs from the block error, and leaves the whole metric
    set as it was. *)
Theorem AcceptTx_unknown tx m :
  txVariantOf tx = None →
  AcceptTx tx m = (Some errUnknownTxType, m)
  ∧ errUnknownTxType ≠ errUnknownBlockType.
Proof. intros Hv. split; [by apply AcceptTx_unclassified|done]. Qed.

(** C4. A block whose identity is none of the five known variants makes
    [AcceptBlock] return the "unknown block type" error and leaves the whole
    metric set, hence every block and transaction counter, as it was. *)
Theorem AcceptBlock_unknown b m :
  blockVariantOf b = None →
  AcceptBlock b m = (Some errUnknownBlockType, m).
Proof. destruct b; intros Hb; simplify_eq. reflexivity. Qed.

(** C7. For an Abort or a Commit block [AcceptBlock] returns nil, increments
    the block counter of that variant by one, and changes no other block
    counter, no transaction counter and no gauge. *)
Theorem AcceptBlock_Abort_Commit b v m :
  blockVariantOf b = Some v →
  v = Abort ∨ v = Commit →
  let '(err, m') := AcceptBlock b m in
  err = None
  ∧ onlyBlock v m m'
  ∧ prometheus.counterValue (blockCounter v m')
    = prometheus.counterValue (blockCounter v m) + 1
  ∧ (∀ t, txCounter t m' = txCounter t m)
  ∧ sameGauges m m'.
Proof.
  intros Hb Hv.
  assert (AcceptBlock b m = (None, bumpBlock v m)) as ->.
  { destruct b; simplify_eq/=; try reflexivity; by destruct Hv. }
  split_and!; [done|apply onlyBlock_bumpBlock| | |apply sameGauges_bumpBlock].
  - rewrite blockCounter_bumpBlock, decide_True by done. done.
  - intros t. apply txCounter_bumpBlock.
Qed.

(** C6. For an Atomic or a Proposal block [AcceptBlock] increments the block
    counter of that variant by one and then hands the embedded transaction to
    [AcceptTx], whose result it returns as it is.  No other block counter
    and no gauge changes.  When the embedded transaction is of a known
    variant the returned error is nil and exactly the transaction counter of
    that variant is incremented, by one. *)
Theorem AcceptBlock_Atomic_Proposal b v tx m :
  (b = AtomicBlock tx ∧ v = Atomic) ∨ (b = ProposalBlock tx ∧ v = Proposal) →
  AcceptBlock b m = AcceptTx tx (bumpBlock v m)
  ∧ let '(err, m') := AcceptBlock b m in
    onlyBlock v m m'
    ∧ prometheus.counterValue (blockCounter v m')
      = prometheus.counterValue (blockCounter v m) + 1
    ∧ sameGauges m m'
    ∧ ∀ t, txVariantOf tx = Some t →
           err = None
           ∧ onlyTx t m m'
           ∧ prometheus.counterValue (txCounter t m')
             = prometheus.counterValue (txCounter t m) + 1.
Proof.
  intros Hb.
  assert (AcceptBlock b m = AcceptTx tx (bumpBlock v m)) as Hrun.
  { by destruct Hb as [[-> ->]|[-> ->]]. }
  split; [done|]. rewrite Hrun. clear Hrun Hb b.
  destruct (txVariantOf tx) as [t|] eqn:Ht.
  - rewrite (AcceptTx_classified _ _ _ Ht). split_and!.
    + split; [|intros v' Hne];
        rewrite blockCounter_bumpTx, blockCounter_bumpBlock.
      * by rewrite decide_True.
      * by rewrite decide_False.
    + rewrite blockCounter_bumpTx, blockCounter_bumpBlock, decide_True by done.
      done.
    + eapply sameGauges_trans;
        [apply sameGauges_bumpBlock|apply sameGauges_bumpTx].
    + intros t0 Ht0. simplify_eq. split_and!; [done| |].
      * split; [|intros t' Hne];
          rewrite txCounter_bumpTx, !txCounter_bumpBlock.
        -- by rewrite decide_True.
        -- by rewrite decide_False.
      * rewrite txCounter_bumpTx, decide_True, !txCounter_bumpBlock by done.
        done.
  - rewrite (AcceptTx_unclassified _ _ Ht). split_and!.
    + apply onlyBlock_bumpBlock.
    + rewrite blockCounter_bumpBlock, decide_True by done. done.
    + apply sameGauges_bumpBlock.
    + intros t' Ht'. done.
Qed.

(** C3. For a Standard block [AcceptBlock] increments the standard-block
    counter by one and dispatches the embedded transactions in list order.
    If every transaction is of a known variant it returns nil and each
    transaction counter has grown by the number of embedded transactions of
    its variant.  If the transactions [pre] are of known variants and the
    next one, [bad], is not, it returns the error that [AcceptTx] gives for
    [bad], only [pre] is counted, and the transactions after [bad] are not
    dispatched. *)
Theorem AcceptBlock_Standard pre m :
  Forall classified pre →
  (let '(err, m') := AcceptBlock (StandardBlock pre) m in
   err = None ∧ standardEffect pre m m')
  ∧ ∀ bad post,
      txVariantOf bad = None →
      let '(err, m') := AcceptBlock (StandardBlock (pre ++ bad :: post)) m in
      err = Some errUnknownTxType
      ∧ err = (AcceptTx bad m').1
      ∧ standardEffect pre m m'.
Proof.
  intros Hpre. split.
  - rewrite AcceptBlock_standard_all by done.
    split; [done|by apply AcceptBlock_standard_classified].
  - intros bad post Hbad.
    rewrite AcceptBlock_standard_stop by done.
    rewrite (AcceptTx_unclassified _ _ Hbad).
    split_and!; [done|done|by apply AcceptBlock_standard_classified].
Qed.

(** C9. When [AcceptBlock] returns an error for a block of a known variant,
    the increments made before the failure stay: the block counter of that
    variant is one higher, and the embedded transactions split into a prefix
    of known variants, which are counted, and the first failing transaction;
    nothing is rolled back. *)
Theorem AcceptBlock_error_keeps_increments b v m :
  blockVariantOf b = Some v →
  (AcceptBlock b m).1 ≠ None →
  let m' := (AcceptBlock b m).2 in
  (AcceptBlock b m).1 = Some errUnknownTxType
  ∧ onlyBlock v m m'
  ∧ prometheus.counterValue (blockCounter v m')
    = prometheus.counterValue (blockCounter v m) + 1
  ∧ ∃ pre bad post,
      embedded b = pre ++ bad :: post
      ∧ Forall classified pre
      ∧ txVariantOf bad = None
      ∧ countedTxs pre m m'.
Proof.
  intros Hb Herr.
  assert (∃ pre bad post,
            embedded b = pre ++ bad :: post
            ∧ Forall classified pre
            ∧ txVariantOf bad = None
            ∧ AcceptBlock b m
              = (Some errUnknownTxType, dispatchAll pre (bumpBlock v m)))
    as (pre & bad & post & Hsplit & Hpre & Hbad & Hrun).
  { destruct b as [|tx| |tx|txs|]; simplify_eq/=; try done.
    - destruct (txVariantOf tx) as [t|] eqn:Ht.
      + unfold mbind, State_bind in Herr. simpl in Herr.
        by rewrite (AcceptTx_classified _ _ _ Ht) in Herr.
      + exists [], tx, []. split_and!; [done|done|done|].
        unfold mbind, State_bind. simpl.
        by rewrite (AcceptTx_unclassified _ _ Ht).
    - destruct (txVariantOf tx) as [t|] eqn:Ht.
      + unfold mbind, State_bind in Herr. simpl in Herr.
        by rewrite (AcceptTx_classified _ _ _ Ht) in Herr.
      + exists [], tx, []. split_and!; [done|done|done|].
        unfold mbind, State_bind. simpl.
        by rewrite (AcceptTx_unclassified _ _ Ht).
    - destruct (first_unclassified txs)
        as [Hall|(pre & bad & post & -> & Hpre & Hbad)].
      + exfalso. apply Herr.
        change ((AcceptBlock (StandardBlock txs) m).1 = None).
        by rewrite AcceptBlock_standard_all.
      + exists pre, bad, post. split_and!; [done|done|done|].
        by apply AcceptBlock_standard_stop. }
  simpl. rewrite Hrun. simpl.
  destruct (dispatchAll_classified pre (bumpBlock v m) Hpre) as (Hc & Hbk & _).
  assert (onlyBlock v m (dispatchAll pre (bumpBlock v m))) as Ho.
  { split; [|intros v' Hne]; rewrite Hbk, blockCounter_bumpBlock.
    - by rewrite decide_True.
    - by rewrite decide_False. }
  split_and!; [done|done| |].
  - destruct Ho as [-> _]. done.
  - exists pre, bad, post. split_and!; [done|done|done|].
    intros t. destruct (Hc t) as [Hval Hopts].
    by rewrite Hval, Hopts, txCounter_bumpBlock.
Qed.

End dispatch_properties.

(** ** Properties of Initialize *)

Lemma BuildFQName_no_subsystem ns name :
  name ≠ "" →
  prometheus.BuildFQName ns "" name
    = if decide (ns = "") then name else ns +:+ "_" +:+ name.
Proof.
  intros Hname. unfold prometheus.BuildFQName.
  rewrite decide_False by done.
  rewrite (decide_False (P := ns ≠ "" ∧ "" ≠ "")) by (by intros [_ ?]).
  destruct (decide (ns = "")) as [->|Hns].
  - done.
  - by rewrite decide_True.
Qed.

Lemma append_inj_r (s t u : string) : s +:+ t = s +:+ u → t = u.
Proof.
  induction s as [|a s IH]; simpl; intros Heq; [done|].
  apply IH. by injection Heq.
Qed.

Lemma metricNames_NoDup : NoDup metricNames.
Proof. apply (bool_decide_unpack _). by vm_compute. Qed.

Lemma metricNames_nonempty : Forall (λ name, name ≠ "") metricNames.
Proof. repeat constructor; done. Qed.

(** Under a namespace the sixteen names are prefixed with it and an
    underscore; under the empty namespace they stand alone. *)
Lemma fqNames_prefixed ns :
  map (prometheus.BuildFQName ns "") metricNames
  = map (λ name, if decide (ns = "") then name else ns +:+ "_" +:+ name)
      metricNames.
Proof.
  apply Forall_fmap_ext_1.
  eapply Forall_impl; [apply metricNames_nonempty|].
  intros name Hname. by apply BuildFQName_no_subsystem.
Qed.

(** The sixteen names stay distinct under every namespace. *)
Lemma fqNames_NoDup ns :
  NoDup (map (prometheus.BuildFQName ns "") metricNames).
Proof.
  rewrite fqNames_prefixed.
  apply NoDup_fmap_2; [|apply metricNames_NoDup].
  intros a b. destruct (decide (ns = "")); [done|].
  intros Heq. by do 2 apply append_inj_r in Heq.
Qed.

Lemma registerAll_length {R} `{!prometheus.Registerer R}
    (cs : list prometheus.Collector) (r : R) :
  length (registerAll cs r).1 = length cs.
Proof.
  revert r. induction cs as [|c cs IH]; intros r; [done|].
  simpl. unfold mbind, State_bind.
  destruct (prometheus.Register c r) as [e r1].
  specialize (IH r1). destruct (registerAll cs r1) as [es r2].
  simpl in *. by rewrite IH.
Qed.

(** [registerAll] leaves the registerer in the state that the calls produce
    one after the other, no call being skipped. *)
Lemma registerAll_state {R} `{!prometheus.Registerer R}
    (cs : list prometheus.Collector) (r : R) :
  (registerAll cs r).2 = foldl (λ r c, (prometheus.Register c r).2) r cs.
Proof.
  revert r. induction cs as [|c cs IH]; intros r; [done|].
  simpl. unfold mbind, State_bind.
  destruct (prometheus.Register c r) as [e r1].
  specialize (IH r1). destruct (registerAll cs r1) as [es r2].
  simpl in *. by rewrite IH.
Qed.

Lemma failures_zip (cs : list prometheus.Collector) (es : list (option error)) :
  length cs = length es → failures (zip cs es) = omap id es.
Proof.
  revert es. induction cs as [|c cs IH]; intros [|e es] Hlen; simplify_eq/=;
    [done|].
  unfold failures in *. simpl. rewrite IH by done. by destruct e.
Qed.

Lemma foldl_snoc {A} (l k : list A) :
  foldl (λ acc x, acc ++ [x]) l k = l ++ k.
Proof.
  revert l. induction k as [|x k IH]; intros l; simpl.
  - by rewrite app_nil_r.
  - by rewrite IH, <-(assoc_L (++)).
Qed.

Lemma Add_fresh (errors : list (option error)) :
  wrappers.Err (wrappers.Add {| wrappers.Err := None |} errors)
  = match omap id errors with
    | [] => None
    | failed => Some (multiError failed)
    end.
Proof. unfold wrappers.Add. by destruct (omap id errors). Qed.

Section initialize_properties.

Context {APIInterceptor R : Type} `{!prometheus.Registerer R}.
Variable NewAPIInterceptor :
  string → R → (APIInterceptor * option error) * R.
Implicit Types w : @world APIInterceptor R.

(** The sixteen [Register] calls of [Initialize], taken one at a time. *)
Lemma Initialize_steps ns w :
  Initialize NewAPIInterceptor ns w
  = let '((api, err), r1) := NewAPIInterceptor ns (registerer w) in
    let m' := constructed ns api in
    let '(results, r2) := registerAll (collectors m') r1 in
    (wrappers.Err (wrappers.Add {| wrappers.Err := None |} (err :: results)),
     {| receiver := m';
        registerer := r2;
        registerCalls :=
          foldl (λ calls call, calls ++ [call]) (registerCalls w)
            (zip (collectors m') results) |}).
Proof.
  destruct w as [m r calls].
  cbv -[prometheus.Register wrappers.Add wrappers.Err].
  destruct (NewAPIInterceptor ns r) as [[api err] r1].
  repeat match goal with
  | |- context [prometheus.Register ?c ?r] =>
      destruct (prometheus.Register c r) as [? ?]
  end.
  reflexivity.
Qed.

(** [Initialize] as one step of the interceptor constructor followed by the
    sixteen registrations of the metric set it has just built. *)
Lemma Initialize_run ns w :
  Initialize NewAPIInterceptor ns w
  = let '((api, err), r1) := NewAPIInterceptor ns (registerer w) in
    let m' := constructed ns api in
    let '(results, r2) := registerAll (collectors m') r1 in
    (wrappers.Err (wrappers.Add {| wrappers.Err := None |} (err :: results)),
     {| receiver := m';
        registerer := r2;
        registerCalls := registerCalls w ++ zip (collectors m') results |}).
Proof.
  rewrite Initialize_steps.
  destruct (NewAPIInterceptor ns (registerer w)) as [[api err] r1].
  cbv zeta.
  destruct (registerAll (collectors (constructed ns api)) r1)
    as [results r2].
  by rewrite foldl_snoc.
Qed.

Lemma metricOpts_constructed ns (api : APIInterceptor) :
  map prometheus.Name (metricOpts (constructed ns api)) = metricNames
  ∧ Forall (λ o, prometheus.Namespace o = ns ∧ prometheus.Subsystem o = "")
      (metricOpts (constructed ns api))
  ∧ map prometheus.fqName (metricOpts (constructed ns api))
    = map (prometheus.BuildFQName ns "") metricNames.
Proof. split_and!; [done| |done]. repeat constructor. Qed.

Lemma collectors_constructed_NoDup ns (api : APIInterceptor) :
  NoDup (collectors (constructed ns api)).
Proof.
  apply (NoDup_fmap_1 (λ c, prometheus.Name (prometheus.collectorOpts c))).
  exact metricNames_NoDup.
Qed.

(** C8. The metric set that [Initialize] builds carries exactly the names of
    the specification: the gauges percent_connected and total_staked, a
    counter <kind>_blks_accepted for each block variant and a counter
    <kind>_txs_accepted for each transaction variant, all in the namespace
    that was passed; the namespace-prefixed names are pairwise distinct. *)
Theorem Initialize_metric_names ns w :
  let m' := receiver (Initialize NewAPIInterceptor ns w).2 in
  prometheus.Name (prometheus.gaugeOpts (percentConnected m'))
    = "percent_connected"
  ∧ prometheus.Name (prometheus.gaugeOpts (totalStake m')) = "total_staked"
  ∧ (∀ v, prometheus.Name (prometheus.counterOpts (blockCounter v m'))
          = blockKind v +:+ "_blks_accepted")
  ∧ (∀ v, prometheus.Name (prometheus.counterOpts (txCounter v m'))
          = txKind v +:+ "_txs_accepted")
  ∧ map prometheus.Name (metricOpts m') = metricNames
  ∧ Forall (λ o, prometheus.Namespace o = ns ∧ prometheus.Subsystem o = "")
      (metricOpts m')
  ∧ map prometheus.fqName (metricOpts m')
    = map (λ name, if decide (ns = "") then name else ns +:+ "_" +:+ name)
        metricNames
  ∧ NoDup (map prometheus.fqName (metricOpts m')).
Proof.
  rewrite Initialize_run.
  destruct (NewAPIInterceptor ns (registerer w)) as [[api err] r1].
  cbv zeta.
  destruct (registerAll (collectors (constructed ns api)) r1)
    as [results r2]. simpl receiver.
  destruct (metricOpts_constructed ns api) as (Hnames & Hns & Hfq).
  split_and!; [done|done| | |done|done| |].
  - by intros [].
  - by intros [].
  - rewrite Hfq. apply fqNames_prefixed.
  - rewrite Hfq. apply fqNames_NoDup.
Qed.

(** C2. Every call of [Initialize] issues sixteen [Register] calls, one for
    each metric of the set it has built and in the order of the struct: the
    two gauges, the five block counters, the nine transaction counters.
    The sixteen collectors are pairwise different, no other collector is
    passed to [Register], and the registerer ends in the state that these
    sixteen calls produce from the one the interceptor constructor left. *)
Theorem Initialize_registers_sixteen ns w :
  let w' := (Initialize NewAPIInterceptor ns w).2 in
  map fst (registerCalls w')
    = map fst (registerCalls w) ++ collectors (receiver w')
  ∧ length (collectors (receiver w')) = 16
  ∧ NoDup (collectors (receiver w'))
  ∧ registerer w'
    = foldl (λ r c, (prometheus.Register c r).2)
        (NewAPIInterceptor ns (registerer w)).2 (collectors (receiver w')).
Proof.
  rewrite Initialize_run.
  destruct (NewAPIInterceptor ns (registerer w)) as [[api err] r1].
  pose proof (registerAll_length (collectors (constructed ns api)) r1) as Hlen.
  pose proof (registerAll_state (collectors (constructed ns api)) r1) as Hst.
  cbv zeta.
  destruct (registerAll (collectors (constructed ns api)) r1)
    as [results r2].
  cbn [fst snd receiver registerer registerCalls] in *.
  split_and!; [|done|apply collectors_constructed_NoDup|done].
  rewrite fmap_app. f_equal. apply fst_zip. lia.
Qed.

(** C1. When at least one of the registrations of a call of [Initialize]
    fails, all sixteen registrations have nevertheless been attempted, and
    the error returned is a single error that holds the error of every
    failed registration, together with the error of the interceptor
    constructor if there was one. *)
Theorem Initialize_collects_failures ns w :
  registerCalls w = [] →
  failures (registerCalls (Initialize NewAPIInterceptor ns w).2) ≠ [] →
  let '(ret, w') := Initialize NewAPIInterceptor ns w in
  map fst (registerCalls w') = collectors (receiver w')
  ∧ length (registerCalls w') = 16
  ∧ ∃ merged,
      ret = Some (multiError merged)
      ∧ (∀ c e, (c, Some e) ∈ registerCalls w' → e ∈ merged)
      ∧ merged
        = option_list (NewAPIInterceptor ns (registerer w)).1.2
          ++ failures (registerCalls w').
Proof.
  intros Hfresh. rewrite Initialize_run.
  destruct (NewAPIInterceptor ns (registerer w)) as [[api err] r1].
  pose proof (registerAll_length (collectors (constructed ns api)) r1) as Hlen.
  cbv zeta.
  destruct (registerAll (collectors (constructed ns api)) r1)
    as [results r2].
  cbn [fst snd receiver registerer registerCalls] in *.
  rewrite Hfresh, app_nil_l. intros Hfail.
  assert (failures (zip (collectors (constructed ns api)) results)
          = omap id results) as Hzip by (by apply failures_zip).
  split_and!.
  - apply fst_zip. lia.
  - rewrite length_zip, Hlen. done.
  - exists (option_list err ++ omap id results).
    rewrite Hzip in *. split_and!; [| |done].
    + rewrite Add_fresh.
      destruct err as [e|]; cbn [omap list_omap id option_list app]; [done|].
      by destruct (omap id results).
    + intros c e Hin. apply elem_of_app. right.
      rewrite <-Hzip. unfold failures. apply list_elem_of_omap.
      by exists (c, Some e).
Qed.

End initialize_properties.

(** ** The properties at concrete inputs *)

Section scenarios.

Import fixture.

Lemma Initialize_collects_failures_witness :
  failures (registerCalls
              (Initialize quietInterceptor "avalanche_P" (start crowded)).2)
    ≠ []
  ∧ let '(ret, w') := Initialize quietInterceptor "avalanche_P" (start crowded) in
    length (registerCalls w') = 16
    ∧ length (failures (registerCalls w')) = 2
    ∧ ∃ merged,
        ret = Some (multiError merged)
        ∧ ∀ c e, (c, Some e) ∈ registerCalls w' → e ∈ merged.
Proof.
  assert (failures (registerCalls
            (Initialize quietInterceptor "avalanche_P" (start crowded)).2)
          ≠ []) as Hfail by (by vm_compute).
  split; [exact Hfail|].
  pose proof (Initialize_collects_failures quietInterceptor "avalanche_P"
                (start crowded) eq_refl Hfail) as Hthm.
  assert (length (failures (registerCalls
            (Initialize quietInterceptor "avalanche_P" (start crowded)).2))
          = 2) as Htwo by (by vm_compute).
  destruct (Initialize quietInterceptor "avalanche_P" (start crowded))
    as [ret w'].
  destruct Hthm as (_ & Hlen & merged & Hret & Hin & _).
  split; [exact Hlen|]. split; [exact Htwo|].
  exists merged. split; [exact Hret|exact Hin].
Defined.

(** On an empty registry every registration succeeds: [Initialize] returns
    nil and the registry holds the sixteen prefixed names and nothing else. *)
Lemma Initialize_on_empty_registry :
  (Initialize quietInterceptor "avalanche_P" (start ∅)).1 = None
  ∧ dom (registerer initialized)
    = list_to_set (map (λ name, "avalanche_P_" +:+ name) metricNames)
  ∧ size (registerer initialized) = 16.
Proof. split_and!; by vm_compute. Qed.

(** The scenarios of the specification on a freshly initialized metric set. *)
Lemma scenario_standard_block :
  let '(err, m') :=
    AcceptBlock
      (StandardBlock
         [tx VerifiableUnsignedAddValidatorTx; tx VerifiableUnsignedExportTx])
      ready in
  err = None
  ∧ map (λ v, prometheus.counterValue (blockCounter v m')) blockVariants
    = [0; 0; 0; 0; 1]
  ∧ map (λ v, prometheus.counterValue (txCounter v m')) txVariants
    = [0; 0; 1; 0; 0; 0; 1; 0; 0].
Proof. by vm_compute. Qed.

Lemma scenario_proposal_block :
  let '(err, m') :=
    AcceptBlock (ProposalBlock (tx VerifiableUnsignedAdvanceTimeTx)) ready in
  err = None
  ∧ map (λ v, prometheus.counterValue (blockCounter v m')) blockVariants
    = [0; 0; 0; 1; 0]
  ∧ map (λ v, prometheus.counterValue (txCounter v m')) txVariants
    = [0; 0; 0; 1; 0; 0; 0; 0; 0].
Proof. by vm_compute. Qed.

Lemma scenario_broken_block :
  let '(err, m') := AcceptBlock brokenBlock ready in
  err = Some errUnknownTxType
  ∧ map (λ v, prometheus.counterValue (blockCounter v m')) blockVariants
    = [0; 0; 0; 0; 1]
  ∧ map (λ v, prometheus.counterValue (txCounter v m')) txVariants
    = [0; 0; 1; 0; 0; 0; 0; 0; 0].
Proof. by vm_compute. Qed.

Lemma AcceptBlock_Standard_witness :
  let txs :=
    [tx VerifiableUnsignedAddValidatorTx; tx VerifiableUnsignedExportTx] in
  let bad := tx (OtherUnsignedTx "UnsignedTransformSubnetTx") in
  let post := [tx VerifiableUnsignedImportTx] in
  Forall classified txs
  ∧ txVariantOf bad = None
  ∧ (AcceptBlock (StandardBlock txs) ready).1 = None
  ∧ standardEffect txs ready (AcceptBlock (StandardBlock txs) ready).2
  ∧ (AcceptBlock (StandardBlock (txs ++ bad :: post)) ready).1
    = Some errUnknownTxType
  ∧ standardEffect txs ready
      (AcceptBlock (StandardBlock (txs ++ bad :: post)) ready).2.
Proof.
  intros txs bad post.
  assert (Forall classified txs) as Hall.
  { repeat constructor; eexists; reflexivity. }
  split; [exact Hall|]. split; [reflexivity|].
  destruct (AcceptBlock_Standard txs ready Hall) as [Hok Hstop].
  specialize (Hstop bad post eq_refl).
  destruct (AcceptBlock (StandardBlock txs) ready) as [err m'].
  destruct (AcceptBlock (StandardBlock (txs ++ bad :: post)) ready)
    as [err2 m2].
  destruct Hok as [Herr Heff]. destruct Hstop as (Herr2 & _ & Heff2).
  split; [exact Herr|]. split; [exact Heff|]. split; [exact Herr2|exact Heff2].
Defined.

Lemma AcceptBlock_unknown_witness :
  blockVariantOf (OtherBlock "UnknownBlock") = None
  ∧ AcceptBlock (OtherBlock "UnknownBlock") ready
    = (Some errUnknownBlockType, ready).
Proof.
  split; [reflexivity|].
  exact (AcceptBlock_unknown (OtherBlock "UnknownBlock") ready eq_refl).
Defined.

Lemma AcceptTx_unknown_witness :
  txVariantOf (tx (OtherUnsignedTx "UnsignedTransformSubnetTx")) = None
  ∧ AcceptTx (tx (OtherUnsignedTx "UnsignedTransformSubnetTx")) ready
    = (Some errUnknownTxType, ready).
Proof.
  split; [reflexivity|].
  exact (proj1 (AcceptTx_unknown
                  (tx (OtherUnsignedTx "UnsignedTransformSubnetTx")) ready
                  eq_refl)).
Defined.

Lemma AcceptBlock_Atomic_Proposal_witness :
  let b := ProposalBlock (tx VerifiableUnsignedAdvanceTimeTx) in
  (AcceptBlock b ready).1 = None
  ∧ prometheus.counterValue (numProposalBlocks (AcceptBlock b ready).2)
    = prometheus.counterValue (numProposalBlocks ready) + 1
  ∧ prometheus.counterValue (numAdvanceTimeTxs (AcceptBlock b ready).2)
    = prometheus.counterValue (numAdvanceTimeTxs ready) + 1.
Proof.
  intros b.
  destruct (AcceptBlock_Atomic_Proposal b Proposal
              (tx VerifiableUnsignedAdvanceTimeTx) ready
              (or_intror (conj eq_refl eq_refl))) as [_ Hthm].
  destruct (AcceptBlock b ready) as [err m'].
  destruct Hthm as (_ & Hblock & _ & Htx).
  destruct (Htx AdvanceTime eq_refl) as (Herr & _ & Hval).
  split; [exact Herr|]. split; [exact Hblock|exact Hval].
Defined.

Lemma AcceptBlock_Abort_Commit_witness :
  blockVariantOf CommitBlock = Some Commit
  ∧ (AcceptBlock CommitBlock ready).1 = None
  ∧ prometheus.counterValue (numCommitBlocks (AcceptBlock CommitBlock ready).2)
    = prometheus.counterValue (numCommitBlocks ready) + 1
  ∧ ∀ t, txCounter t (AcceptBlock CommitBlock ready).2 = txCounter t ready.
Proof.
  split; [reflexivity|].
  pose proof (AcceptBlock_Abort_Commit CommitBlock Commit ready eq_refl
                (or_intror eq_refl)) as Hthm.
  destruct (AcceptBlock CommitBlock ready) as [err m'].
  destruct Hthm as (Herr & _ & Hval & Htx & _).
  split; [exact Herr|]. split; [exact Hval|exact Htx].
Defined.

Lemma AcceptBlock_error_keeps_increments_witness :
  blockVariantOf brokenBlock = Some Standard
  ∧ (AcceptBlock brokenBlock ready).1 ≠ None
  ∧ prometheus.counterValue (numStandardBlocks (AcceptBlock brokenBlock ready).2)
    = prometheus.counterValue (numStandardBlocks ready) + 1.
Proof.
  assert ((AcceptBlock brokenBlock ready).1 ≠ None) as Herr by (by vm_compute).
  split; [reflexivity|]. split; [exact Herr|].
  destruct (AcceptBlock_error_keeps_increments brokenBlock Standard ready
              eq_refl Herr) as (_ & _ & Hval & _).
  exact Hval.
Defined.

End scenarios.

(** ** Further properties of the acceptance dispatchers *)

Section dispatch_accounting.

Context {APIInterceptor : Type}.
Implicit Types m : @metrics APIInterceptor.

(** What [AcceptBlock] does, for every block: nothing on a block of no known
    variant; otherwise the block counter is incremented and the embedded
    transactions are dispatched up to the first that is of no known
    variant. *)
Lemma AcceptBlock_shape b m :
  match blockVariantOf b with
  | None => AcceptBlock b m = (Some errUnknownBlockType, m)
  | Some v =>
      ∃ pre,
        Forall classified pre
        ∧ ((embedded b = pre
            ∧ AcceptBlock b m = (None, dispatchAll pre (bumpBlock v m)))
           ∨ ∃ bad post,
               embedded b = pre ++ bad :: post
               ∧ txVariantOf bad = None
               ∧ AcceptBlock b m
                 = (Some errUnknownTxType, dispatchAll pre (bumpBlock v m)))
  end.
Proof.
  assert (∀ v tx,
    AcceptBlock b m = AcceptTx tx (bumpBlock v m) → embedded b = [tx] →
    ∃ pre,
      Forall classified pre
      ∧ ((embedded b = pre
          ∧ AcceptBlock b m = (None, dispatchAll pre (bumpBlock v m)))
         ∨ ∃ bad post,
             embedded b = pre ++ bad :: post
             ∧ txVariantOf bad = None
             ∧ AcceptBlock b m
               = (Some errUnknownTxType, dispatchAll pre (bumpBlock v m))))
    as Hsingle.
  { intros v tx -> ->. destruct (txVariantOf tx) as [t|] eqn:Ht.
    - exists [tx]. split; [repeat constructor; by exists t|]. left.
      split; [done|]. unfold dispatchAll. simpl.
      by rewrite !(AcceptTx_classified _ _ _ Ht).
    - exists []. split; [constructor|]. right. exists tx, [].
      split_and!; [done|done|]. by rewrite (AcceptTx_unclassified _ _ Ht). }
  destruct b as [|tx| |tx|txs|]; simpl blockVariantOf.
  - exists []. split; [constructor|]. by left.
  - by apply (Hsingle Atomic tx).
  - exists []. split; [constructor|]. by left.
  - by apply (Hsingle Proposal tx).
  - destruct (first_unclassified txs)
      as [Hall|(pre & bad & post & -> & Hpre & Hbad)].
    + exists txs. split; [done|]. left. split; [done|].
      by apply AcceptBlock_standard_all.
    + exists pre. split; [done|]. right. exists bad, post.
      split_and!; [done|done|]. by apply AcceptBlock_standard_stop.
  - done.
Qed.

Lemma countTxs_app v txs1 txs2 :
  countTxs v (txs1 ++ txs2) = countTxs v txs1 + countTxs v txs2.
Proof. unfold countTxs. by rewrite filter_app, length_app. Qed.

Lemma not_classified_split pre bad post :
  txVariantOf bad = None → ¬ Forall classified (pre ++ bad :: post).
Proof.
  intros Hbad Hall. apply Forall_app in Hall as [_ Hall].
  apply Forall_cons in Hall as [[t Ht] _]. congruence.
Qed.

(** The state after a block of a known variant, counter by counter. *)
Lemma AcceptBlock_counted b v m :
  blockVariantOf b = Some v →
  ∃ pre,
    Forall classified pre
    ∧ ((embedded b = pre ∧ (AcceptBlock b m).1 = None)
       ∨ ∃ bad post,
           embedded b = pre ++ bad :: post
           ∧ txVariantOf bad = None
           ∧ (AcceptBlock b m).1 = Some errUnknownTxType)
    ∧ countedTxs pre m (AcceptBlock b m).2
    ∧ onlyBlock v m (AcceptBlock b m).2
    ∧ sameGauges m (AcceptBlock b m).2.
Proof.
  intros Hv. pose proof (AcceptBlock_shape b m) as Hshape.
  rewrite Hv in Hshape. destruct Hshape as (pre & Hpre & Hrun).
  exists pre. split; [done|].
  assert ((AcceptBlock b m).2 = dispatchAll pre (bumpBlock v m)) as ->.
  { by destruct Hrun as [[_ ->]|(bad & post & _ & _ & ->)]. }
  split.
  { destruct Hrun as [[? ->]|(bad & post & ? & ? & ->)]; [by left|].
    right. by exists bad, post. }
  destruct (dispatchAll_classified pre (bumpBlock v m) Hpre) as (Hc & Hb & Hg).
  split_and!.
  - intros t. destruct (Hc t) as [Hval Hopts].
    by rewrite Hval, Hopts, txCounter_bumpBlock.
  - split; [|intros v' Hne]; rewrite Hb, blockCounter_bumpBlock.
    + by rewrite decide_True.
    + by rewrite decide_False.
  - eapply sameGauges_trans; [apply sameGauges_bumpBlock|done].
Qed.

(** X2. Whatever the block and whatever [AcceptBlock] returns, no counter
    loses its descriptor, no counter goes down, and the gauges and the
    interceptor are left alone. *)
Theorem AcceptBlock_counters_grow b m :
  sameGauges m (AcceptBlock b m).2 ∧ countersGrew m (AcceptBlock b m).2.
Proof.
  destruct (blockVariantOf b) as [v|] eqn:Hv.
  - destruct (AcceptBlock_counted b v m Hv)
      as (pre & _ & _ & Hc & [Hinc Hrest] & Hg).
    split; [done|]. split.
    + intros v'. destruct (decide (v' = v)) as [->|Hne].
      * rewrite Hinc. simpl. split; [done|lia].
      * by rewrite (Hrest v' Hne).
    + intros t. destruct (Hc t) as [-> ->]. split; [done|lia].
  - pose proof (AcceptBlock_shape b m) as Hshape. rewrite Hv in Hshape.
    rewrite Hshape. simpl. split; [done|]. by split; intros ?.
Qed.

(** X3. The three results of [AcceptBlock]: nil exactly for a block of a
    known variant whose embedded transactions are all of known variants, the
    block error exactly for a block of no known variant, and the transaction
    error exactly for a block of a known variant that embeds a transaction
    of no known variant. *)
Theorem AcceptBlock_result b m :
  ((AcceptBlock b m).1 = None
   ↔ is_Some (blockVariantOf b) ∧ Forall classified (embedded b))
  ∧ ((AcceptBlock b m).1 = Some errUnknownBlockType
     ↔ blockVariantOf b = None)
  ∧ ((AcceptBlock b m).1 = Some errUnknownTxType
     ↔ is_Some (blockVariantOf b) ∧ ¬ Forall classified (embedded b)).
Proof.
  pose proof (AcceptBlock_shape b m) as Hshape.
  destruct (blockVariantOf b) as [v|] eqn:Hv.
  - destruct Hshape
      as (pre & Hpre & [[Hemb ->]|(bad & post & Hemb & Hbad & ->)]);
      rewrite Hemb; simpl.
    + split_and!; split; [by eauto|done|done|done|done|].
      intros [_ Hnot]. by destruct Hnot.
    + pose proof (not_classified_split pre bad post Hbad) as Hnot.
      split_and!; split; [done| |done|done|by eauto|done].
      by intros [_ ?].
  - rewrite Hshape. simpl.
    split_and!; split; [done| |done|done|done|]; by intros [[? ?] _].
Qed.

Lemma countTxs_total txs :
  Forall classified txs →
  sum_list_with (λ v, countTxs v txs) txVariants = length txs.
Proof.
  induction 1 as [|tx txs [t Ht] _ IH]; [done|].
  unfold txVariants in *. cbn [sum_list_with] in *.
  rewrite !countTxs_cons, Ht. cbn [length]. rewrite <-IH.
  destruct t; repeat case_decide; simplify_eq; lia.
Qed.

Lemma countTxs_le v pre rest :
  countTxs v pre ≤ countTxs v (pre ++ rest).
Proof. rewrite countTxs_app. lia. Qed.

Lemma totalTxs_counted txs m m' :
  countedTxs txs m m' →
  totalTxs m' = totalTxs m + sum_list_with (λ v, countTxs v txs) txVariants.
Proof.
  intros Hc. unfold totalTxs, txVariants. cbn [sum_list_with].
  rewrite !(proj1 (Hc _)). lia.
Qed.

Lemma totalBlocks_only v m m' :
  onlyBlock v m m' → totalBlocks m' = totalBlocks m + 1.
Proof.
  intros [Hinc Hrest]. unfold totalBlocks, blockVariants.
  cbn [sum_list_with].
  destruct v; rewrite Hinc, ?Hrest by done; simpl; lia.
Qed.

(** X4. Accounting over one block.  The block counters together grow by one
    for a block of a known variant and not at all otherwise.  The
    transaction counters together grow by at most the number of embedded
    transactions, and by exactly that number when [AcceptBlock] returns
    nil. *)
Theorem AcceptBlock_totals b m :
  let '(err, m') := AcceptBlock b m in
  totalBlocks m'
    = totalBlocks m + (if blockVariantOf b is Some _ then 1 else 0)
  ∧ totalTxs m ≤ totalTxs m' ≤ totalTxs m + length (embedded b)
  ∧ (err = None → totalTxs m' = totalTxs m + length (embedded b)).
Proof.
  destruct (blockVariantOf b) as [v|] eqn:Hv.
  - destruct (AcceptBlock_counted b v m Hv)
      as (pre & Hpre & Hemb & Hc & Ho & _).
    pose proof (totalTxs_counted _ _ _ Hc) as Htx.
    pose proof (totalBlocks_only _ _ _ Ho) as Hbl.
    pose proof (countTxs_total pre Hpre) as Hsum.
    destruct (AcceptBlock b m) as [err m']. cbn [fst snd] in Htx, Hbl, Hemb.
    split; [done|]. rewrite Htx, Hsum.
    destruct Hemb as [[-> _]|(bad & post & -> & _ & ->)].
    + split; [lia|done].
    + rewrite length_app. split; [lia|done].
  - pose proof (AcceptBlock_shape b m) as Hshape. rewrite Hv in Hshape.
    rewrite Hshape. destruct b; simplify_eq/=. split_and!; [lia|lia|lia|done].
Qed.

Lemma bumpTx_comm t1 t2 m : bumpTx t1 (bumpTx t2 m) = bumpTx t2 (bumpTx t1 m).
Proof. destruct t1, t2; reflexivity. Qed.

(** Two calls of [AcceptTx] leave the same metric set in either order. *)
Lemma AcceptTx_swap tx1 tx2 m :
  (AcceptTx tx2 (AcceptTx tx1 m).2).2 = (AcceptTx tx1 (AcceptTx tx2 m).2).2.
Proof.
  destruct (txVariantOf tx1) as [t1|] eqn:H1;
    destruct (txVariantOf tx2) as [t2|] eqn:H2;
    rewrite ?(AcceptTx_classified _ _ _ H1), ?(AcceptTx_unclassified _ _ H1),
      ?(AcceptTx_classified _ _ _ H2), ?(AcceptTx_unclassified _ _ H2);
    cbn [snd];
    rewrite ?(AcceptTx_classified _ _ _ H1), ?(AcceptTx_unclassified _ _ H1),
      ?(AcceptTx_classified _ _ _ H2), ?(AcceptTx_unclassified _ _ H2);
    cbn [snd]; [apply bumpTx_comm|done..].
Qed.

Lemma dispatchAll_Permutation txs txs' m :
  txs ≡ₚ txs' → dispatchAll txs m = dispatchAll txs' m.
Proof.
  intros Hperm. revert m.
  induction Hperm as [|tx txs txs' _ IH|tx1 tx2 txs|txs1 txs2 txs3 _ IH1 _ IH2];
    intros m.
  - done.
  - unfold dispatchAll in *. simpl. apply IH.
  - unfold dispatchAll. simpl. by rewrite AcceptTx_swap.
  - by rewrite IH1.
Qed.

(** X5. The outcome of a Standard block whose transactions are all of known
    variants does not depend on the order of the transactions. *)
Theorem AcceptBlock_Standard_any_order txs txs' m :
  txs ≡ₚ txs' →
  Forall classified txs →
  AcceptBlock (StandardBlock txs) m = AcceptBlock (StandardBlock txs') m.
Proof.
  intros Hperm Hall.
  assert (Forall classified txs') as Hall' by (by rewrite <-Hperm).
  rewrite !AcceptBlock_standard_all by done.
  by rewrite (dispatchAll_Permutation _ _ _ Hperm).
Qed.

Lemma countBlocks_cons v b bs :
  countBlocks v (b :: bs)
    = (if decide (blockVariantOf b = Some v) then 1 else 0) + countBlocks v bs.
Proof. unfold countBlocks. rewrite filter_cons. by case_decide. Qed.

(** One block, seen from the counter of block variant [v]. *)
Lemma AcceptBlock_block_counter b v m :
  prometheus.counterValue (blockCounter v (AcceptBlock b m).2)
  = prometheus.counterValue (blockCounter v m)
    + (if decide (blockVariantOf b = Some v) then 1 else 0).
Proof.
  destruct (blockVariantOf b) as [v'|] eqn:Hv.
  - destruct (AcceptBlock_counted b v' m Hv)
      as (pre & _ & _ & _ & [Hinc Hrest] & _).
    case_decide; simplify_eq.
    + by rewrite Hinc.
    + rewrite Hrest by congruence. lia.
  - pose proof (AcceptBlock_shape b m) as Hshape. rewrite Hv in Hshape.
    rewrite Hshape, decide_False by done. simpl. lia.
Qed.

(** One block, seen from the counter of transaction variant [t]. *)
Lemma AcceptBlock_tx_counter b t m :
  prometheus.counterValue (txCounter t m)
    ≤ prometheus.counterValue (txCounter t (AcceptBlock b m).2)
    ≤ prometheus.counterValue (txCounter t m) + countTxs t (embedded b)
  ∧ (Forall classified (embedded b) →
     prometheus.counterValue (txCounter t (AcceptBlock b m).2)
     = prometheus.counterValue (txCounter t m) + countTxs t (embedded b)).
Proof.
  destruct (blockVariantOf b) as [v|] eqn:Hv.
  - destruct (AcceptBlock_counted b v m Hv)
      as (pre & _ & Hemb & Hc & _ & _).
    destruct (Hc t) as [-> _].
    destruct Hemb as [[-> _]|(bad & post & -> & Hbad & _)].
    + split; [lia|done].
    + pose proof (countTxs_le t pre (bad :: post)). split; [lia|].
      intros Hall. by apply not_classified_split in Hall.
  - pose proof (AcceptBlock_shape b m) as Hshape. rewrite Hv in Hshape.
    rewrite Hshape. destruct b; simplify_eq/=.
    unfold countTxs. simpl. split; [lia|]. intros _. lia.
Qed.

Lemma countTxs_embeddedAll_cons t b bs :
  countTxs t (embeddedAll (b :: bs))
  = countTxs t (embedded b) + countTxs t (embeddedAll bs).
Proof. unfold embeddedAll. simpl. apply countTxs_app. Qed.

(** One block leaves every counter its descriptor. *)
Lemma AcceptBlock_opts b m :
  metricOpts (AcceptBlock b m).2 = metricOpts m.
Proof.
  assert (sameGauges m (AcceptBlock b m).2
          ∧ (∀ v, prometheus.counterOpts (blockCounter v (AcceptBlock b m).2)
                  = prometheus.counterOpts (blockCounter v m))
          ∧ (∀ t, prometheus.counterOpts (txCounter t (AcceptBlock b m).2)
                  = prometheus.counterOpts (txCounter t m)))
    as ((Hpc & Hts & _) & Hb & Ht).
  { destruct (blockVariantOf b) as [v|] eqn:Hv.
    - destruct (AcceptBlock_counted b v m Hv)
        as (pre & _ & _ & Hc & [Hinc Hrest] & Hg).
      split_and!; [done| |intros t; apply Hc].
      intros v'. destruct (decide (v' = v)) as [->|Hne].
      + by rewrite Hinc.
      + by rewrite Hrest.
    - pose proof (AcceptBlock_shape b m) as Hshape. rewrite Hv in Hshape.
      by rewrite Hshape. }
  unfold metricOpts, blockVariants, txVariants. cbn [map app].
  by rewrite Hpc, Hts, !Hb, !Ht.
Qed.

(** A sequence of blocks, counter by counter. *)
Lemma acceptBlocks_counters bs m :
  (∀ v, prometheus.counterValue (blockCounter v (acceptBlocks bs m))
        = prometheus.counterValue (blockCounter v m) + countBlocks v bs)
  ∧ (∀ t, prometheus.counterValue (txCounter t m)
          ≤ prometheus.counterValue (txCounter t (acceptBlocks bs m))
          ≤ prometheus.counterValue (txCounter t m)
            + countTxs t (embeddedAll bs))
  ∧ (Forall (λ b, Forall classified (embedded b)) bs →
     ∀ t, prometheus.counterValue (txCounter t (acceptBlocks bs m))
          = prometheus.counterValue (txCounter t m)
            + countTxs t (embeddedAll bs))
  ∧ metricOpts (acceptBlocks bs m) = metricOpts m.
Proof.
  revert m. induction bs as [|b bs IH]; intros m.
  - split_and!; [intros v|intros t|intros _ t|done];
      unfold countBlocks, countTxs; simpl; lia.
  - destruct (IH (AcceptBlock b m).2) as (IHb & IHt & IHe & IHo).
    unfold acceptBlocks in *. simpl. split_and!.
    + intros v. rewrite IHb, AcceptBlock_block_counter, countBlocks_cons. lia.
    + intros t. specialize (IHt t).
      destruct (AcceptBlock_tx_counter b t m) as [Hstep _].
      rewrite countTxs_embeddedAll_cons. lia.
    + intros Hall t. apply Forall_cons in Hall as [Hb Hall].
      rewrite (IHe Hall).
      destruct (AcceptBlock_tx_counter b t m) as [_ Hstep].
      rewrite Hstep by done. rewrite countTxs_embeddedAll_cons. lia.
    + by rewrite IHo, AcceptBlock_opts.
Qed.

(** X6. After any sequence of blocks handed to [AcceptBlock] one after the
    other, each block counter has grown by exactly the number of blocks of
    its variant in the sequence, the blocks on which [AcceptBlock] failed
    included; each transaction counter has grown by at most the number of
    embedded transactions of its variant. *)
Theorem acceptBlocks_counts bs m :
  (∀ v, prometheus.counterValue (blockCounter v (acceptBlocks bs m))
        = prometheus.counterValue (blockCounter v m) + countBlocks v bs)
  ∧ (∀ t, prometheus.counterValue (txCounter t m)
          ≤ prometheus.counterValue (txCounter t (acceptBlocks bs m))
          ≤ prometheus.counterValue (txCounter t m)
            + countTxs t (embeddedAll bs)).
Proof.
  destruct (acceptBlocks_counters bs m) as (Hb & Ht & _).
  split; [exact Hb|exact Ht].
Qed.

(** X7. If no block of a sequence embeds a transaction of an unknown
    variant, then after the sequence each transaction counter has grown by
    exactly the number of embedded transactions of its variant. *)
Theorem acceptBlocks_tx_counts bs m :
  Forall (λ b, Forall classified (embedded b)) bs →
  ∀ t, prometheus.counterValue (txCounter t (acceptBlocks bs m))
       = prometheus.counterValue (txCounter t m)
         + countTxs t (embeddedAll bs).
Proof.
  intros Hall t.
  destruct (acceptBlocks_counters bs m) as (_ & _ & He & _). by apply He.
Qed.

End dispatch_accounting.

(** ** Further properties of Initialize and of the metric names *)

Lemma chars_app (s t : string) : chars (s +:+ t) = chars s ++ chars t.
Proof. induction s as [|a s IH]; simpl; [done|]. by rewrite IH. Qed.

Lemma chars_inj (s t : string) : chars s = chars t → s = t.
Proof.
  revert t. induction s as [|a s IH]; intros [|b t] Heq; simplify_eq/=;
    [done|]. f_equal. by apply IH.
Qed.

Lemma fqName_chars ns name :
  name ≠ "" →
  chars (prometheus.BuildFQName ns "" name) = prefixChars ns ++ chars name.
Proof.
  intros Hname. rewrite BuildFQName_no_subsystem by done.
  unfold prefixChars. case_decide; [done|].
  by rewrite !chars_app, (assoc_L (++)).
Qed.

Lemma prefixChars_inj ns1 ns2 : prefixChars ns1 = prefixChars ns2 → ns1 = ns2.
Proof.
  unfold prefixChars. repeat case_decide; subst; intros Heq.
  - done.
  - by destruct (chars ns2).
  - by destruct (chars ns1).
  - apply app_inj_2 in Heq as [Heq _]; [|done]. by apply chars_inj.
Qed.

(** A non-empty prefix ends with the underscore. *)
Lemma prefixChars_snoc ns :
  prefixChars ns = [] ∨ ∃ q, prefixChars ns = q ++ chars "_".
Proof. unfold prefixChars. case_decide; [by left|]. right. by eexists. Qed.

(** None of the sixteen names ends with an underscore followed by another
    of the sixteen names. *)
Lemma metricNames_no_tail :
  Forall (λ n1,
    Forall (λ n2, ¬ (chars "_" ++ chars n1) `suffix_of` chars n2) metricNames)
    metricNames.
Proof. apply (bool_decide_unpack _). by vm_compute. Qed.

Lemma prefixed_apart p1 p2 n1 n2 :
  n1 ∈ metricNames → n2 ∈ metricNames →
  (p1 = [] ∨ ∃ q, p1 = q ++ chars "_") →
  (p2 = [] ∨ ∃ q, p2 = q ++ chars "_") →
  p1 ++ chars n1 = p2 ++ chars n2 → p1 = p2.
Proof.
  assert (∀ p1 p2 n1 n2 k,
    n1 ∈ metricNames → n2 ∈ metricNames →
    (p1 = [] ∨ ∃ q, p1 = q ++ chars "_") →
    p1 = p2 ++ k → chars n2 = k ++ chars n1 → p1 = p2) as Hcase.
  { clear. intros p1 p2 n1 n2 k Hn1 Hn2 Hp1 Hp Hn.
    destruct k as [|x k _] using rev_ind; [by rewrite app_nil_r in Hp|].
    exfalso. destruct Hp1 as [->|[q ->]].
    - symmetry in Hp. apply app_eq_nil in Hp as [_ Hp].
      by apply app_eq_nil in Hp as [_ ?].
    - rewrite (assoc_L (++)) in Hp.
      apply app_inj_2 in Hp as [_ Hx]; [|done]. simpl in Hx.
      pose proof metricNames_no_tail as Hno.
      rewrite Forall_forall in Hno. specialize (Hno n1 Hn1).
      rewrite Forall_forall in Hno. apply (Hno n2 Hn2).
      exists k. rewrite Hn, <-(assoc_L (++)). by rewrite <-Hx. }
  intros Hn1 Hn2 Hp1 Hp2 Heq.
  apply app_eq_inv in Heq as [[k [Hp Hn]]|[k [Hp Hn]]].
  - by apply (Hcase p1 p2 n1 n2 k).
  - symmetry. by apply (Hcase p2 p1 n2 n1 k).
Qed.

(** Two of the sixteen names, each under its namespace, are the same
    exported name only if the namespaces are the same and the names are. *)
Lemma fqNames_apart ns1 ns2 n1 n2 :
  n1 ∈ metricNames → n2 ∈ metricNames →
  prometheus.BuildFQName ns1 "" n1 = prometheus.BuildFQName ns2 "" n2 →
  ns1 = ns2 ∧ n1 = n2.
Proof.
  intros Hn1 Hn2 Heq.
  pose proof metricNames_nonempty as Hne. rewrite Forall_forall in Hne.
  apply (f_equal chars) in Heq. rewrite !fqName_chars in Heq by auto.
  pose proof (prefixed_apart _ _ _ _ Hn1 Hn2 (prefixChars_snoc ns1)
                (prefixChars_snoc ns2) Heq) as Hp.
  rewrite Hp in Heq. apply (inj (app _)) in Heq.
  split; [by apply prefixChars_inj|by apply chars_inj].
Qed.

Section initialize_more.

Context {APIInterceptor R : Type} `{!prometheus.Registerer R}.
Variable NewAPIInterceptor :
  string → R → (APIInterceptor * option error) * R.
Implicit Types w : @world APIInterceptor R.

(** X1. [Initialize] overwrites the whole receiver: the metric set, the
    returned error and the final registerer do not depend on what the
    receiver held before, every counter and gauge of the new set is at zero,
    and the interceptor that the constructor returned is installed, whether
    or not the constructor also returned an error. *)
Theorem Initialize_overwrites ns m1 m2 r calls1 calls2 :
  let run1 :=
    Initialize NewAPIInterceptor ns
      {| receiver := m1; registerer := r; registerCalls := calls1 |} in
  let run2 :=
    Initialize NewAPIInterceptor ns
      {| receiver := m2; registerer := r; registerCalls := calls2 |} in
  run1.1 = run2.1
  ∧ receiver run1.2 = receiver run2.2
  ∧ registerer run1.2 = registerer run2.2
  ∧ (∀ v, prometheus.counterValue (blockCounter v (receiver run1.2)) = 0)
  ∧ (∀ t, prometheus.counterValue (txCounter t (receiver run1.2)) = 0)
  ∧ prometheus.gaugeValue (percentConnected (receiver run1.2)) = 0%Z
  ∧ prometheus.gaugeValue (totalStake (receiver run1.2)) = 0%Z
  ∧ apiRequestMetrics (receiver run1.2) = (NewAPIInterceptor ns r).1.1.
Proof.
  cbv zeta. rewrite !Initialize_run. cbn [registerer].
  destruct (NewAPIInterceptor ns r) as [[api err] r1]. cbv zeta.
  destruct (registerAll (collectors (constructed ns api)) r1)
    as [results r2].
  cbn [fst snd receiver registerer].
  split_and!; try done; by intros [].
Qed.

(** X9. Metric sets initialized under different namespaces share no
    exported name: whatever the two namespaces, the empty one included, no
    fully qualified name of the one set is a fully qualified name of the
    other. *)
Theorem Initialize_namespaces_apart ns1 ns2 w1 w2 :
  ns1 ≠ ns2 →
  ∀ o1 o2,
    o1 ∈ metricOpts (receiver (Initialize NewAPIInterceptor ns1 w1).2) →
    o2 ∈ metricOpts (receiver (Initialize NewAPIInterceptor ns2 w2).2) →
    prometheus.fqName o1 ≠ prometheus.fqName o2.
Proof.
  intros Hns o1 o2. rewrite !Initialize_run.
  destruct (NewAPIInterceptor ns1 (registerer w1)) as [[api1 err1] r1].
  destruct (NewAPIInterceptor ns2 (registerer w2)) as [[api2 err2] r2].
  cbv zeta.
  destruct (registerAll (collectors (constructed ns1 api1)) r1) as [? ?].
  destruct (registerAll (collectors (constructed ns2 api2)) r2) as [? ?].
  cbn [snd receiver]. intros Ho1 Ho2 Heq.
  destruct (metricOpts_constructed ns1 api1) as (_ & _ & Hfq1).
  destruct (metricOpts_constructed ns2 api2) as (_ & _ & Hfq2).
  assert (prometheus.fqName o1
          ∈ map (prometheus.BuildFQName ns1 "") metricNames) as Hin1.
  { rewrite <-Hfq1. by apply list_elem_of_fmap_2. }
  assert (prometheus.fqName o2
          ∈ map (prometheus.BuildFQName ns2 "") metricNames) as Hin2.
  { rewrite <-Hfq2. by apply list_elem_of_fmap_2. }
  apply list_elem_of_fmap in Hin1 as (n1 & Hn1 & Hmem1).
  apply list_elem_of_fmap in Hin2 as (n2 & Hn2 & Hmem2).
  rewrite Hn1, Hn2 in Heq.
  by destruct (fqNames_apart _ _ _ _ Hmem1 Hmem2 Heq).
Qed.

(** X10. From [Initialize] on: after any sequence of blocks handed to
    [AcceptBlock], the counter of each block variant reads the number of
    blocks of that variant in the sequence, the counter of each transaction
    variant reads at most the number of embedded transactions of that
    variant, and exactly that number when no embedded transaction is of an
    unknown variant; the sixteen descriptors are still the ones that
    [Initialize] built. *)
Theorem counters_since_Initialize ns w bs :
  let m0 := receiver (Initialize NewAPIInterceptor ns w).2 in
  let m := acceptBlocks bs m0 in
  (∀ v, prometheus.counterValue (blockCounter v m) = countBlocks v bs)
  ∧ (∀ t, prometheus.counterValue (txCounter t m)
          ≤ countTxs t (embeddedAll bs))
  ∧ (Forall (λ b, Forall classified (embedded b)) bs →
     ∀ t, prometheus.counterValue (txCounter t m)
          = countTxs t (embeddedAll bs))
  ∧ metricOpts m = metricOpts m0
  ∧ map prometheus.Name (metricOpts m) = metricNames.
Proof.
  cbv zeta. rewrite Initialize_run.
  destruct (NewAPIInterceptor ns (registerer w)) as [[api err] r1]. cbv zeta.
  destruct (registerAll (collectors (constructed ns api)) r1)
    as [results r2].
  cbn [snd receiver].
  destruct (acceptBlocks_counters bs (constructed ns api))
    as (Hb & Ht & He & Ho).
  split_and!.
  - intros v. rewrite Hb. by destruct v.
  - intros t. specialize (Ht t).
    assert (prometheus.counterValue (txCounter t (constructed ns api)) = 0)
      as Hzero by (by destruct t).
    lia.
  - intros Hall t. rewrite (He Hall). by destruct t.
  - done.
  - rewrite Ho. apply metricOpts_constructed.
Qed.

End initialize_more.

(** X8. The names that [newBlockMetrics] and [newTxMetrics] build: a block
    counter never has the name of a transaction counter, whatever the two
    kinds, and two counters built by the same function have the same name
    only for the same kind. *)
Theorem counter_names_apart ns1 ns2 kind1 kind2 :
  prometheus.Name (prometheus.counterOpts (newBlockMetrics ns1 kind1))
    ≠ prometheus.Name (prometheus.counterOpts (newTxMetrics ns2 kind2))
  ∧ (prometheus.Name (prometheus.counterOpts (newBlockMetrics ns1 kind1))
     = prometheus.Name (prometheus.counterOpts (newBlockMetrics ns2 kind2))
     → kind1 = kind2)
  ∧ (prometheus.Name (prometheus.counterOpts (newTxMetrics ns1 kind1))
     = prometheus.Name (prometheus.counterOpts (newTxMetrics ns2 kind2))
     → kind1 = kind2).
Proof.
  simpl. split_and!; intros Heq; apply (f_equal chars) in Heq;
    rewrite !chars_app in Heq.
  - change (chars "_blks_accepted") with (chars "_" ++ chars "blks_accepted")
      in Heq.
    rewrite (assoc_L (++)) in Heq.
    by apply app_inj_2 in Heq as [_ ?].
  - apply app_inj_2 in Heq as [Heq _]; [|done]. by apply chars_inj.
  - apply app_inj_2 in Heq as [Heq _]; [|done]. by apply chars_inj.
Qed.

(** ** Initialize called again *)

Section initialize_again.

Context {APIInterceptor R : Type} `{!prometheus.Registerer R}.
Variable NewAPIInterceptor :
  string → R → (APIInterceptor * option error) * R.
Implicit Types w : @world APIInterceptor R.

(** X11. The collectors that [Initialize] passes to [Register] depend on the
    namespace alone: two calls under one namespace pass the same sixteen
    collectors, whatever the receiver, the registerer and the interceptor
    were. *)
Theorem Initialize_same_collectors ns w1 w2 :
  collectors (receiver (Initialize NewAPIInterceptor ns w1).2)
  = collectors (receiver (Initialize NewAPIInterceptor ns w2).2).
Proof.
  rewrite !Initialize_run.
  destruct (NewAPIInterceptor ns (registerer w1)) as [[api1 err1] r1].
  destruct (NewAPIInterceptor ns (registerer w2)) as [[api2 err2] r2].
  cbv zeta.
  destruct (registerAll (collectors (constructed ns api1)) r1) as [? ?].
  destruct (registerAll (collectors (constructed ns api2)) r2) as [? ?].
  reflexivity.
Qed.

End initialize_again.

(** The registry that refuses duplicates never forgets a name, and refuses
    a collector whose name it holds without changing. *)
Lemma Registry_Register_dom c (r : gmap string prometheus.Collector) :
  dom (prometheus.Register c r).2
  = {[prometheus.fqName (prometheus.collectorOpts c)]} ∪ dom r.
Proof.
  unfold prometheus.Register, prometheus.Registry_Registerer.
  destruct (r !! prometheus.fqName (prometheus.collectorOpts c)) eqn:Hr;
    simpl.
  - apply elem_of_dom_2 in Hr. symmetry. apply subseteq_union_1_L.
    by apply singleton_subseteq_l.
  - by rewrite dom_insert_L.
Qed.

Lemma Registry_Register_taken c (r : gmap string prometheus.Collector) :
  prometheus.fqName (prometheus.collectorOpts c) ∈ dom r →
  is_Some (prometheus.Register c r).1 ∧ (prometheus.Register c r).2 = r.
Proof.
  intros [c' Hc']%elem_of_dom.
  unfold prometheus.Register, prometheus.Registry_Registerer.
  rewrite Hc'. simpl. split; [by eexists|done].
Qed.

Lemma Registry_registerAll_dom cs (r : gmap string prometheus.Collector) :
  dom (registerAll cs r).2
  = list_to_set (map (λ c, prometheus.fqName (prometheus.collectorOpts c)) cs)
    ∪ dom r.
Proof.
  revert r. induction cs as [|c cs IH]; intros r; simpl.
  - by rewrite (left_id_L ∅ (∪)).
  - unfold mbind, State_bind.
    pose proof (Registry_Register_dom c r) as Hc.
    destruct (prometheus.Register c r) as [e r1].
    specialize (IH r1). destruct (registerAll cs r1) as [es r2].
    simpl in *. rewrite IH, Hc.
    rewrite !(assoc_L (∪)). f_equal. apply (comm_L (∪)).
Qed.

Lemma Registry_registerAll_taken cs (r : gmap string prometheus.Collector) :
  Forall (λ c, prometheus.fqName (prometheus.collectorOpts c) ∈ dom r) cs →
  Forall is_Some (registerAll cs r).1 ∧ (registerAll cs r).2 = r.
Proof.
  induction 1 as [|c cs Hc _ IH]; simpl; [done|].
  unfold mbind, State_bind.
  destruct (Registry_Register_taken c r Hc) as [He Hr].
  destruct (prometheus.Register c r) as [e r1]. simpl in *. subst r1.
  destruct (registerAll cs r) as [es r2]. simpl in *.
  destruct IH as [Hes ->]. split; [by constructor|done].
Qed.

Section registry_again.

Context {APIInterceptor : Type}.
Variable NewAPIInterceptor :
  string → gmap string prometheus.Collector
  → (APIInterceptor * option error) * gmap string prometheus.Collector.
Implicit Types w : @world APIInterceptor (gmap string prometheus.Collector).

(** X12. On the registry that refuses duplicates, and with an interceptor
    constructor that removes no name from it, a second [Initialize] under
    the same namespace still issues its sixteen [Register] calls, every one
    of them returns an error, and they leave the registry as the
    interceptor constructor left it. *)
Theorem Initialize_twice_refused ns w :
  (∀ ns r, dom r ⊆ dom (NewAPIInterceptor ns r).2) →
  let w1 := (Initialize NewAPIInterceptor ns w).2 in
  let w2 := (Initialize NewAPIInterceptor ns w1).2 in
  registerer w2 = (NewAPIInterceptor ns (registerer w1)).2
  ∧ ∃ calls,
      registerCalls w2 = registerCalls w1 ++ calls
      ∧ map fst calls = collectors (receiver w2)
      ∧ length calls = 16
      ∧ Forall (λ call, is_Some call.2) calls.
Proof.
  intros Hkeep. cbv zeta.
  rewrite (Initialize_run _ ns (Initialize NewAPIInterceptor ns w).2).
  rewrite (Initialize_run _ ns w).
  destruct (NewAPIInterceptor ns (registerer w)) as [[api1 err1] r1].
  cbv zeta.
  pose proof (Registry_registerAll_dom (collectors (constructed ns api1)) r1)
    as Hdom.
  destruct (registerAll (collectors (constructed ns api1)) r1)
    as [results1 r2].
  cbn [fst snd receiver registerer registerCalls] in *.
  pose proof (Hkeep ns r2) as Hkeep2.
  destruct (NewAPIInterceptor ns r2) as [[api2 err2] r3].
  cbn [fst snd] in *.
  assert (Forall (λ c, prometheus.fqName (prometheus.collectorOpts c) ∈ dom r3)
            (collectors (constructed ns api2))) as Htaken.
  { apply Forall_forall. intros c Hc. apply Hkeep2. rewrite Hdom.
    apply elem_of_union_l, elem_of_list_to_set.
    apply (list_elem_of_fmap_2
             (λ c, prometheus.fqName (prometheus.collectorOpts c))) in Hc.
    exact Hc. }
  pose proof (registerAll_length (collectors (constructed ns api2)) r3)
    as Hlen.
  destruct (Registry_registerAll_taken _ _ Htaken) as [Hfail Hsame].
  destruct (registerAll (collectors (constructed ns api2)) r3)
    as [results2 r4].
  cbn [fst snd receiver registerer registerCalls] in *.
  split; [done|].
  exists (zip (collectors (constructed ns api2)) results2).
  split_and!; [done| | |].
  - apply fst_zip. lia.
  - rewrite length_zip, Hlen. done.
  - apply Forall_forall. intros [c e] Hin.
    apply elem_of_zip_r in Hin. rewrite Forall_forall in Hfail.
    by apply Hfail.
Qed.

End registry_again.

(** ** The further properties at concrete inputs *)

Section more_scenarios.

Import fixture.

Lemma AcceptBlock_Standard_any_order_witness :
  let txs :=
    [tx VerifiableUnsignedAddValidatorTx; tx VerifiableUnsignedExportTx] in
  let txs' :=
    [tx VerifiableUnsignedExportTx; tx VerifiableUnsignedAddValidatorTx] in
  txs ≡ₚ txs'
  ∧ Forall classified txs
  ∧ AcceptBlock (StandardBlock txs) ready
    = AcceptBlock (StandardBlock txs') ready.
Proof.
  intros txs txs'.
  assert (txs ≡ₚ txs') as Hperm by apply perm_swap.
  assert (Forall classified txs) as Hall.
  { repeat constructor; eexists; reflexivity. }
  split; [exact Hperm|]. split; [exact Hall|].
  exact (AcceptBlock_Standard_any_order txs txs' ready Hperm Hall).
Defined.

Lemma acceptBlocks_tx_counts_witness :
  Forall (λ b, Forall classified (embedded b)) sample.cleanChain
  ∧ prometheus.counterValue
      (txCounter Export (acceptBlocks sample.cleanChain ready))
    = prometheus.counterValue (txCounter Export ready)
      + countTxs Export (embeddedAll sample.cleanChain).
Proof.
  assert (Forall (λ b, Forall classified (embedded b)) sample.cleanChain)
    as Hall.
  { repeat constructor; eexists; reflexivity. }
  split; [exact Hall|].
  exact (acceptBlocks_tx_counts sample.cleanChain ready Hall Export).
Defined.

Lemma Initialize_namespaces_apart_witness :
  let mP := receiver (Initialize quietInterceptor "avalanche_P" (start ∅)).2 in
  let mX := receiver (Initialize quietInterceptor "avalanche_X" (start ∅)).2 in
  "avalanche_P" ≠ "avalanche_X"
  ∧ prometheus.fqName (prometheus.counterOpts (numExportTxs mP))
    ≠ prometheus.fqName (prometheus.counterOpts (numExportTxs mX)).
Proof.
  intros mP mX.
  assert ("avalanche_P" ≠ "avalanche_X") as Hns by discriminate.
  split; [exact Hns|].
  apply (Initialize_namespaces_apart quietInterceptor
           "avalanche_P" "avalanche_X" (start ∅) (start ∅) Hns).
  - vm_compute. do 13 apply list_elem_of_further. apply list_elem_of_here.
  - vm_compute. do 13 apply list_elem_of_further. apply list_elem_of_here.
Defined.

Lemma Initialize_twice_refused_witness :
  let w2 := (Initialize quietInterceptor "avalanche_P" initialized).2 in
  (∀ (ns : string) (r : gmap string prometheus.Collector),
     dom r ⊆ dom (quietInterceptor ns r).2)
  ∧ registerer w2 = registerer initialized
  ∧ ∃ calls,
      registerCalls w2 = registerCalls initialized ++ calls
      ∧ length calls = 16
      ∧ Forall (λ call, is_Some call.2) calls.
Proof.
  intros w2.
  assert (∀ (ns : string) (r : gmap string prometheus.Collector),
            dom r ⊆ dom (quietInterceptor ns r).2) as Hkeep.
  { intros ns r. reflexivity. }
  split; [exact Hkeep|].
  destruct (Initialize_twice_refused quietInterceptor "avalanche_P" (start ∅)
              Hkeep) as (Hreg & calls & Hcalls & _ & Hlen & Hfail).
  split; [exact Hreg|]. exists calls.
  split; [exact Hcalls|]. split; [exact Hlen|exact Hfail].
Defined.

(** The sample chain on a freshly initialized metric set: the block counters
    count all five blocks of known variants, the transaction counters leave
    out the transaction of unknown variant and the one behind it. *)
Lemma scenario_chain :
  map (λ v, prometheus.counterValue
              (blockCounter v (acceptBlocks sample.chain ready)))
    blockVariants
  = [0; 1; 1; 1; 2]
  ∧ map (λ v, prometheus.counterValue
                (txCounter v (acceptBlocks sample.chain ready)))
      txVariants
    = [0; 0; 2; 0; 0; 0; 2; 2; 0]
  ∧ length (embeddedAll sample.chain) = 8.
Proof. by vm_compute. Qed.

End more_scenarios.
